(** * Extension discovery and profiling of [src/compiler/extensions.ts]

    A shallow embedding of the extension cache ([createExtensionCache],
    with its private [collectCompilerExtensions]) and of the profiling
    recorder ([startExtensionProfile], [completeExtensionProfile]),
    followed by the properties established about them. *)

From Stdlib Require Import ZArith String Ascii List Bool Lia.
From stdpp Require Import base option list gmap strings pretty.

Local Open Scope Z_scope.
Local Open Scope string_scope.

(** ** JavaScript values

    The code inspects values it knows nothing about: what a host loaded,
    what a module exports, what a load threw.  Of such a value it uses the
    truth value, [typeof], one property read, the enumeration of the own
    properties and the conversion to a string.  A value is modelled with
    just enough structure for these.  An object is: whether it can be
    called, the text its own [toString()] produces, and its own enumerable
    properties in enumeration order.  A number is an integer; [Number n]
    stands for [n] itself as long as [n] is a safe integer (at most
    2^53 - 1 in magnitude), and for the infinity of its sign beyond.  The
    values handled by discovery are looked at through their own
    properties; what [Object.prototype] adds to them is outside the model.
    The [profiles] object of a descriptor, which is indexed by arbitrary
    task names, is modelled with its prototype (see [ProfileMap]). *)

#[local] Set Warnings "-register-all".
Inductive Value : Type :=
| Undefined
| Null
| Boolean (b : bool)
| Number (n : Z)
| NaN
| Str (s : string)
| Object (callable : bool) (text : string) (props : list (string * Value)).

(** [!!v] *)
Definition truthy (v : Value) : bool :=
  match v with
  | Undefined | Null | NaN => false
  | Boolean b => b
  | Number n => negb (Z.eqb n 0)
  | Str s => negb (String.eqb s "")
  | Object _ _ _ => true
  end.

(** [typeof v] *)
Definition typeof (v : Value) : string :=
  match v with
  | Undefined => "undefined"
  | Null => "object"
  | Boolean _ => "boolean"
  | Number _ | NaN => "number"
  | Str _ => "string"
  | Object true _ _ => "function"
  | Object false _ _ => "object"
  end.

(** First binding of [key] in a property list. *)
Fixpoint lookupProperty (key : string) (props : list (string * Value)) : Value :=
  match props with
  | [] => Undefined
  | (k, v) :: rest => if String.eqb k key then v else lookupProperty key rest
  end.

(** [v[key]] for a [v] that is neither [null] nor [undefined], and a [key]
    that is a name, not an index: primitives have no such property. *)
Definition getProperty (v : Value) (key : string) : Value :=
  match v with
  | Object _ _ props => lookupProperty key props
  | _ => Undefined
  end.

(** [Number.MAX_SAFE_INTEGER] *)
Definition maxSafeInteger : Z := 9007199254740991.

(** The template-literal conversion [`${v}`].  A safe integer prints as
    its decimal digits. *)
Definition ToString (v : Value) : string :=
  match v with
  | Undefined => "undefined"
  | Null => "null"
  | Boolean true => "true"
  | Boolean false => "false"
  | Number n =>
    if Z.ltb maxSafeInteger n then "Infinity"
    else if Z.ltb n (- maxSafeInteger) then "-Infinity"
    else pretty n
  | NaN => "NaN"
  | Str s => s
  | Object _ text _ => text
  end.

(** The characters of a string as its index properties ["0"], ["1"], ... *)
Fixpoint indexProperties (i : nat) (s : string) : list (string * Value) :=
  match s with
  | EmptyString => []
  | String c rest => (pretty i, Str (String c EmptyString)) :: indexProperties (S i) rest
  end.

(** What [for (key in v) if (hasProperty(v, key))] visits, with [v[key]]. *)
Definition ownProperties (v : Value) : list (string * Value) :=
  match v with
  | Object _ _ props => props
  | Str s => indexProperties 0 s
  | _ => []
  end.

(** ** Abrupt completion *)

(** What this file can raise on its own: a failed [Debug.assert], and the
    [TypeError] of a member access on [undefined]. *)
Inductive Exception : Type :=
| DebugFailure (message : string)
| TypeError (what : string).

Inductive Completion (A : Type) : Type :=
| Normal (a : A)
| Abrupt (e : Exception).
Arguments Normal {A} a.
Arguments Abrupt {A} e.

(** ** Descriptor model *)

Record ProfileData : Type := {
  task : string;
  start : Z;
  length : Z
}.

(** The [profiles] object of a descriptor.  Line 63 makes it a plain [{}]:
    besides its own entries it has a prototype.  That is [Object.prototype]
    at first ([None]); an assignment to the key "__proto__" replaces it by
    the record assigned ([Some]), whose own prototype is
    [Object.prototype]. *)
Record ProfileMap : Type := {
  entries : gmap string ProfileData;
  prototype : option ProfileData
}.

(** [ExtensionBase] together with the [ctor] of the two lint extensions and
    the [__extension] the default case attaches; an absent field is [None]. *)
Record Extension : Type := {
  name : string;
  args : Value;
  kind : string;
  profiles : option ProfileMap;
  ctor : option Value;
  __extension : option Value
}.

(** [r.length = l] *)
Definition setLength (r : ProfileData) (l : Z) : ProfileData :=
  {| task := task r; start := start r; length := l |}.

Definition setProfiles (ext : Extension) (p : ProfileMap) : Extension :=
  {| name := name ext; args := args ext; kind := kind ext;
     profiles := Some p; ctor := ctor ext; __extension := __extension ext |}.

Module ExtensionKind.
Definition SemanticLint : string := "semantic-lint".
Definition SyntacticLint : string := "syntactic-lint".
(** The namespace object [ts.ExtensionKind] the two constants live on. *)
Definition namespace : Value :=
  Object false "[object Object]"
    [("SemanticLint", Str SemanticLint); ("SyntacticLint", Str SyntacticLint)].
End ExtensionKind.

(** ** Profiling recorder

    [+(new Date())] is an input of the model: each function takes the
    reading [now] of the clock it makes. *)

(** The functions every plain object inherits from [Object.prototype]. *)
Definition objectPrototypeMembers : list string :=
  ["constructor"; "toString"; "toLocaleString"; "valueOf"; "hasOwnProperty";
   "isPrototypeOf"; "propertyIsEnumerable"; "__defineGetter__"; "__defineSetter__";
   "__lookupGetter__"; "__lookupSetter__"].

(** [Object.prototype] as far as the recorder can change it: whether line
    76 has given it a [length] (whose value is then [NaN]). *)
Record Realm : Type := {
  objectPrototypeHasLength : bool
}.

(** What [ext.profiles[key]] finds. *)
Inductive Lookup : Type :=
| OwnRecord (r : ProfileData)
| PrototypeRecord (r : ProfileData)
| ObjectPrototype
| InheritedMethod
| InheritedValue (v : Value)
| Missing.

(** [!!ext.profiles[key]] *)
Definition lookupTruthy (found : Lookup) : bool :=
  match found with
  | OwnRecord _ | PrototypeRecord _ | ObjectPrototype | InheritedMethod => true
  | InheritedValue v => truthy v
  | Missing => false
  end.

(** A key that the map does not have itself, found on [Object.prototype]. *)
Definition inheritedFromObjectPrototype (realm : Realm) (key : string) : Lookup :=
  if bool_decide (key ∈ objectPrototypeMembers) then InheritedMethod
  else if String.eqb key "length" && objectPrototypeHasLength realm then InheritedValue NaN
  else Missing.

(** A key found on a record that serves as prototype: one of its fields. *)
Definition inheritedFromRecord (r : ProfileData) (key : string) : option Value :=
  if String.eqb key "task" then Some (Str (task r))
  else if String.eqb key "start" then Some (Number (start r))
  else if String.eqb key "length" then Some (Number (length r))
  else None.

(** The read [profiles[key]]: an own entry first; "__proto__" reads the
    prototype; any other key goes up the prototype chain. *)
Definition getProfile (realm : Realm) (p : ProfileMap) (key : string) : Lookup :=
  match entries p !! key with
  | Some r => OwnRecord r
  | None =>
    if String.eqb key "__proto__" then
      match prototype p with
      | Some r => PrototypeRecord r
      | None => ObjectPrototype
      end
    else
      match prototype p with
      | Some r =>
        match inheritedFromRecord r key with
        | Some v => InheritedValue v
        | None => inheritedFromObjectPrototype realm key
        end
      | None => inheritedFromObjectPrototype realm key
      end
  end.

(** The assignment [profiles[key] = r]: it sets the prototype when the key
    is "__proto__" and the map has no entry of that name, and otherwise
    makes or replaces the own entry. *)
Definition assignProfile (p : ProfileMap) (key : string) (r : ProfileData) : ProfileMap :=
  match entries p !! key with
  | Some _ => {| entries := <[key := r]> (entries p); prototype := prototype p |}
  | None =>
    if String.eqb key "__proto__"
    then {| entries := entries p; prototype := Some r |}
    else {| entries := <[key := r]> (entries p); prototype := prototype p |}
  end.

Definition startExtensionProfile (now : Z) (ext : Extension) (task : string) : Extension :=
  let profiles0 :=
    match profiles ext with
    | Some p => p
    | None => {| entries := ∅; prototype := None |}
    end in
  setProfiles ext (assignProfile profiles0 task {| task := task; start := now; length := -1 |}).

(** Modelled from the spec: [Debug.assert] is declared outside
    extensions.ts.  A failed assertion is fatal: it halts the calling
    operation instead of returning an error value. *)
Definition Debug_assert (expression : bool) (message : string) : Completion unit :=
  if expression then Normal tt else Abrupt (DebugFailure message).

(** [strict] tells whether the compiled code runs in strict mode, which
    the source does not settle: an assignment to a property that cannot be
    written (the [length] of a function, any property of a primitive) is
    ignored in sloppy mode and raises a [TypeError] in strict mode.  The
    result holds the realm along with the descriptor, because line 76 can
    write to [Object.prototype]. *)
Definition completeExtensionProfile (strict : bool) (now : Z) (realm : Realm)
    (ext : Extension) (task : string) : Completion (Realm * Extension) :=
  let endTime := now in
  match Debug_assert (bool_decide (is_Some (profiles ext)))
          "Completed profile, but extension has no started profiles." with
  | Abrupt e => Abrupt e
  | Normal _ =>
    match profiles ext with
    | None => Abrupt (TypeError "profiles")
    | Some p =>
      let found := getProfile realm p task in
      match Debug_assert (lookupTruthy found)
              "Completed profile did not have a corresponding start." with
      | Abrupt e => Abrupt e
      | Normal _ =>
        match found with
        | OwnRecord r =>
          Normal (realm,
                  setProfiles ext
                    {| entries := <[task := setLength r (endTime - start r)]> (entries p);
                       prototype := prototype p |})
        | PrototypeRecord r =>
          Normal (realm,
                  setProfiles ext
                    {| entries := entries p;
                       prototype := Some (setLength r (endTime - start r)) |})
        | ObjectPrototype => Normal ({| objectPrototypeHasLength := true |}, ext)
        | InheritedMethod | InheritedValue _ =>
          if strict then Abrupt (TypeError "length") else Normal (realm, ext)
        | Missing => Abrupt (TypeError "length")
        end
      end
    end
  end.

(** ** Diagnostics *)

(** The two entries of the message catalogue this file uses. *)
Inductive DiagnosticMessage : Type :=
| Extension_loading_failed_with_error_0
| Extension_0_exported_member_1_has_extension_kind_2_but_was_type_3_when_type_4_was_expected.

(** Modelled from the spec: [Diagnostic] and [createCompilerDiagnostic] are
    declared outside extensions.ts.  A diagnostic is a catalogue message
    (which fixes the category) and the arguments that fill its
    placeholders [{0}], [{1}], ... in that order. *)
Record Diagnostic : Type := {
  message : DiagnosticMessage;
  arguments : list Value
}.

Definition createCompilerDiagnostic (message : DiagnosticMessage) (args : list Value)
  : Diagnostic :=
  {| message := message; arguments := args |}.

(** ** Configuration and host *)

(** [options.extensions]: an array of names, a map from name to arguments
    (its entries in enumeration order), or nothing. *)
Inductive ExtensionsOption : Type :=
| NameList (names : list string)
| NameMap (entries : list (string * Value))
| NoExtensions.

Record CompilerOptions : Type := {
  extensions : ExtensionsOption
}.

(** How a call of [host.loadExtension] ends. *)
Inductive LoadOutcome : Type :=
| Returns (v : Value)
| Throws (e : Value).

(** [ExtensionHost].  The two optional members are [None] when the host
    lacks them.  [resolvedModule name containingFile] stands for
    [resolveModuleName(name, containingFile, options, host, true)
    .resolvedModule], reduced to its [resolvedFileName]: the resolution
    algorithm belongs to the module resolver, not to this file. *)
Record ExtensionHost : Type := {
  getCurrentDirectory : option string;
  loadExtension : option (string -> LoadOutcome);
  resolvedModule : string -> string -> option string
}.

(** One element of [extensionLoadResults]: [{ name, result, error }]. *)
Module Res.
Record t : Type := {
  name : string;
  result : Value;
  error : Value
}.
End Res.

(** ** The state behind one cache

    [diagnostics] and [extensions] are the two variables the closure of
    [createExtensionCache] captures.  [loadCalls] is not in the source: it
    lists the arguments of the calls made to [host.loadExtension] so far,
    so that they can be counted. *)
Module Cache.
Record state : Type := {
  diagnostics : list Diagnostic;
  extensions : option (gmap string (list Extension));
  loadCalls : list string
}.
End Cache.

(** Computations that read and write that state and may end abruptly; what
    was written before a throw stays written. *)
Definition M (A : Type) : Type := Cache.state -> Completion A * Cache.state.

Definition ret {A} (a : A) : M A := fun s => (Normal a, s).

Definition throw {A} (e : Exception) : M A := fun s => (Abrupt e, s).

Definition bind {A B} (m : M A) (k : A -> M B) : M B :=
  fun s =>
    match m s with
    | (Normal a, s') => k a s'
    | (Abrupt e, s') => (Abrupt e, s')
    end.

Notation "'do' x <- c 'in' k" := (bind c (fun x => k))
  (at level 10, x name, c at level 100, k at level 200, only parsing).

(** [diagnostics.push(d)] *)
Definition pushDiagnostic (d : Diagnostic) : M unit :=
  fun s => (Normal tt,
            {| Cache.diagnostics := Cache.diagnostics s ++ [d];
               Cache.extensions := Cache.extensions s;
               Cache.loadCalls := Cache.loadCalls s |}).

(** [host.loadExtension(path)], recorded. *)
Definition callLoadExtension (load : string -> LoadOutcome) (path : string) : M LoadOutcome :=
  fun s => (Normal (load path),
            {| Cache.diagnostics := Cache.diagnostics s;
               Cache.extensions := Cache.extensions s;
               Cache.loadCalls := Cache.loadCalls s ++ [path] |}).

(** ** Helpers of the compiler core *)

(** Modelled from the spec: [map] is defined in the compiler core, outside
    extensions.ts.  It calls [f] on the elements in order and collects the
    results. *)
Fixpoint mapArray {T U} (array : list T) (f : T -> M U) : M (list U) :=
  match array with
  | [] => ret []
  | v :: rest =>
    do u <- f v in
    do us <- mapArray rest f in
    ret (u :: us)
  end.

(** The loop of [reduceProperties]: the value the callback returns is the
    aggregate handed to the next call. *)
Fixpoint reduceLoop {U} (callback : U -> Value -> string -> M U)
    (props : list (string * Value)) (result : U) : M U :=
  match props with
  | [] => ret result
  | (key, v) :: rest =>
    do next <- callback result v key in
    reduceLoop callback rest next
  end.

(** Modelled from the spec: [reduceProperties] is defined in the compiler
    core, outside extensions.ts.  It visits every own property of [map] in
    enumeration order, as the spec has the classifier do.  It starts from
    [initial] and gives each round the value the callback returned in the
    round before, which is what the caller counts on when its callback ends
    in [return aggregate]; the value of the last round is the result. *)
Definition reduceProperties {U} (map : Value)
    (callback : U -> Value -> string -> M U) (initial : U) : M U :=
  reduceLoop callback (ownProperties map) initial.

(** Modelled from the spec: [getKeys] is defined in the compiler core,
    outside extensions.ts.  The names of a mapping, in enumeration order. *)
Definition getKeys (entries : list (string * Value)) : list string :=
  List.map fst entries.

Definition endsWithSeparator (path : string) : bool :=
  match String.get (Nat.pred (String.length path)) path with
  | Some c => Ascii.eqb c "/"%char
  | None => false
  end.

(** Modelled from the spec: [combinePaths] is defined in the compiler core,
    outside extensions.ts.  The location of the file [path2] in the
    directory [path1], or [path2] alone when the directory is empty. *)
Definition combinePaths (path1 path2 : string) : string :=
  if String.eqb path1 "" then path2
  else if endsWithSeparator path1 then path1 +:+ path2
  else path1 +:+ "/" +:+ path2.

(** One round of the loop of [groupBy]:
    [if (!ret[result]) ret[result] = []; ret[result].push(elem)]. *)
Definition groupByAdd {T} (classifier : T -> string)
    (ret : gmap string (list T)) (elem : T) : gmap string (list T) :=
  let result := classifier elem in
  <[result := (match ret !! result with Some g => g | None => [] end ++ [elem])%list]> ret.

(** Modelled from the spec: [groupBy] is defined in the compiler core,
    outside extensions.ts.  It groups a sequence by the key the classifier
    gives each element; inside a group the elements keep the order of the
    sequence.  The caller's [|| {}] provides for it yielding no map, which
    is taken to happen when there is nothing to group. *)
Definition groupBy {T} (array : list T) (classifier : T -> string)
  : option (gmap string (list T)) :=
  match array with
  | [] => None
  | _ :: _ => Some (fold_left (groupByAdd classifier) array ∅)
  end.

Section Core.

(** Two things the sources at hand leave open are kept as parameters.

    [flattenKeepsUndefined]: what [flatten] does with an entry that is
    [undefined] instead of an array (see [flatten]).

    [captureStack]: the [stack] an engine gives to an [Error] this file
    constructs with the given message; [Undefined] on an engine without
    stacks. *)
Variable flattenKeepsUndefined : bool.
Variable captureStack : string -> Value.

(** Modelled from the spec: [flatten] is defined in the compiler core,
    outside extensions.ts.  It concatenates the descriptor lists,
    keeping their order.  The spec is silent on an entry that is
    [undefined]; both readings are kept.  Either the entry is dropped, or
    it becomes an element of the flattened array, where the classifier
    [elem => elem.kind] given to [groupBy] raises a [TypeError] on it; as
    nothing is done in between, that error is raised here. *)
Fixpoint flatten (array : list (option (list Extension))) : Completion (list Extension) :=
  match array with
  | [] => Normal []
  | Some v :: rest =>
    match flatten rest with
    | Normal result => Normal (v ++ result)%list
    | Abrupt e => Abrupt e
    end
  | None :: rest =>
    if flattenKeepsUndefined then Abrupt (TypeError "kind") else flatten rest
  end.

(** [new Error(message)] *)
Definition newError (message : string) : Value :=
  Object false ("Error: " +:+ message)
    [("message", Str message); ("stack", captureStack message)].

Definition newline : string := String (ascii_of_nat 10) EmptyString.

(** The text between [${error}] and [${error.stack}] in the template
    literal of the load diagnostic: a line break, the indented words
    [Stack trace:], a line break and the indentation again. *)
Definition stackTraceSeparator : string :=
  newline +:+ "                    Stack trace:" +:+
  newline +:+ "                    ".

Section createExtensionCache.

Variable options : CompilerOptions.
Variable host : ExtensionHost.

(** [aggregate.push(ext); return aggregate;] where [aggregate] may be
    [undefined]. *)
Definition pushExtension (aggregate : option (list Extension)) (ext : Extension)
  : M (option (list Extension)) :=
  match aggregate with
  | Some exts => ret (Some (exts ++ [ext])%list)
  | None => throw (TypeError "push")
  end.

(** [extensionNames === extOptions ? undefined : extOptions[res.name]] *)
Definition argsFor (extOptions : ExtensionsOption) (resName : string) : M Value :=
  match extOptions with
  | NameList _ => ret Undefined
  | NameMap entries => ret (lookupProperty resName entries)
  | NoExtensions => throw (TypeError resName)
  end.

(** The callback of [map] over [extensionNames].  [result] and [error]
    start out [undefined]; the pair bound first holds what the branches
    assign to them.  The two clock readings around the load only feed
    [loadTime], which nothing reads, and are left out. *)
Definition loadExtensionNamed (currentDirectory : string) (name : string) : M Res.t :=
  do loaded <-
    match loadExtension host with
    | Some load =>
      let resolved :=
        resolvedModule host name (combinePaths currentDirectory "tsconfig.json") in
      match resolved with
      | Some resolvedFileName =>
        do outcome <- callLoadExtension load resolvedFileName in
        match outcome with
        | Returns result => ret (result, Undefined)
        | Throws e => ret (Undefined, e)
        end
      | None =>
        ret (Undefined,
             newError ("Host could not locate extension '" +:+ name +:+ "'."))
      end
    | None => ret (Undefined, newError "Extension loading not implemented in host!")
    end in
  let result := fst loaded in
  let error := snd loaded in
  do _ <-
    (if truthy error then
       pushDiagnostic
         (createCompilerDiagnostic Extension_loading_failed_with_error_0
            [if truthy (getProperty error "stack")
             then Str (ToString error +:+ stackTraceSeparator +:+
                       ToString (getProperty error "stack"))
             else error])
     else ret tt) in
  ret {| Res.name := name; Res.result := result; Res.error := error |}.

(** The callback of [reduceProperties] over the exports of [res]. *)
Definition classifyExport (res : Res.t) (aggregate : option (list Extension))
    (potentialExtension : Value) (key : string) : M (option (list Extension)) :=
  if negb (truthy potentialExtension) then ret None
  else
    let annotatedKind := getProperty potentialExtension "extension-kind" in
    match annotatedKind with
    | Str annotatedKindText => (* typeof annotatedKind === "string" *)
      do extArgs <- argsFor (extensions options) (Res.name res) in
      let ext (ctor __extension : option Value) : Extension :=
        {| name := if negb (String.eqb key "default")
                   then Res.name res +:+ "[" +:+ key +:+ "]"
                   else Res.name res;
           args := extArgs;
           kind := annotatedKindText;
           profiles := None;
           ctor := ctor;
           __extension := __extension |} in
      if String.eqb annotatedKindText ExtensionKind.SemanticLint
         || String.eqb annotatedKindText ExtensionKind.SyntacticLint
      then
        if negb (String.eqb (typeof potentialExtension) "function") then
          do _ <- pushDiagnostic
            (createCompilerDiagnostic
               Extension_0_exported_member_1_has_extension_kind_2_but_was_type_3_when_type_4_was_expected
               [Str (Res.name res);
                Str key;
                getProperty ExtensionKind.namespace annotatedKindText;
                Str (typeof potentialExtension);
                Str "function"]) in
          ret None
        else pushExtension aggregate (ext (Some potentialExtension) None)
      else pushExtension aggregate (ext None (Some potentialExtension))
    | _ => ret aggregate
    end.

(** The callback of [map] over [successfulExtensionLoadResults]. *)
Definition prepareExtensionObject (res : Res.t) : M (option (list Extension)) :=
  if truthy (Res.result res) then
    reduceProperties (Res.result res) (classifyExport res) (Some [])
  else ret (Some []).

Definition extensionNamesOf (extOptions : ExtensionsOption) : list string :=
  match extOptions with
  | NameList names => names
  | NameMap entries => getKeys entries
  | NoExtensions => getKeys []
  end.

Definition collectCompilerExtensions : M (gmap string (list Extension)) :=
  let extOptions := extensions options in
  let extensionNames := extensionNamesOf extOptions in
  let currentDirectory :=
    match getCurrentDirectory host with Some cwd => cwd | None => "" end in
  do extensionLoadResults <-
    mapArray extensionNames (loadExtensionNamed currentDirectory) in
  let successfulExtensionLoadResults :=
    List.filter (fun res => negb (truthy (Res.error res))) extensionLoadResults in
  do preparedExtensionObjects <-
    mapArray successfulExtensionLoadResults prepareExtensionObject in
  match flatten preparedExtensionObjects with
  | Abrupt e => throw e
  | Normal flat =>
    ret (match groupBy flat kind with Some groups => groups | None => ∅ end)
  end.

Definition getCompilerExtensions : M (gmap string (list Extension)) :=
  fun s =>
    match Cache.extensions s with
    | Some exts => (Normal exts, s)
    | None =>
      match collectCompilerExtensions s with
      | (Normal exts, s') =>
        (Normal exts,
         {| Cache.diagnostics := Cache.diagnostics s';
            Cache.extensions := Some exts;
            Cache.loadCalls := Cache.loadCalls s' |})
      | (Abrupt e, s') => (Abrupt e, s')
      end
    end.

Definition getExtensionLoadingDiagnostics : M (list Diagnostic) :=
  do _ <- getCompilerExtensions in
  fun s => (Normal (Cache.diagnostics s), s).

End createExtensionCache.

End Core.

(** The state of a cache that [createExtensionCache] has just returned. *)
Definition createExtensionCache : Cache.state :=
  {| Cache.diagnostics := []; Cache.extensions := None; Cache.loadCalls := [] |}.

(** Either accessor of [ExtensionCache], and what it answers. *)
Inductive Accessor : Type :=
| GetCompilerExtensions
| GetExtensionLoadingDiagnostics.

Inductive Answer : Type :=
| Extensions (groups : gmap string (list Extension))
| Diagnostics (diags : list Diagnostic).

Section Calls.

Variable flattenKeepsUndefined : bool.
Variable captureStack : string -> Value.
Variable options : CompilerOptions.
Variable host : ExtensionHost.

Definition callAccessor (a : Accessor) : M Answer :=
  match a with
  | GetCompilerExtensions =>
    do groups <- getCompilerExtensions flattenKeepsUndefined captureStack options host in
    ret (Extensions groups)
  | GetExtensionLoadingDiagnostics =>
    do diags <- getExtensionLoadingDiagnostics flattenKeepsUndefined captureStack options host in
    ret (Diagnostics diags)
  end.

(** The directory [collectCompilerExtensions] resolves names from. *)
Definition currentDirectoryOf : string :=
  match getCurrentDirectory host with Some cwd => cwd | None => "" end.

(** The files [host.loadExtension] is asked for during one discovery:
    one per configured name that resolves, in configured order, and none
    when the host cannot load. *)
Definition expectedLoadCalls : list string :=
  match loadExtension host with
  | Some _ =>
    omap (fun name =>
            resolvedModule host name (combinePaths currentDirectoryOf "tsconfig.json"))
         (extensionNamesOf (extensions options))
  | None => []
  end.

End Calls.

(** ** Sample modules and hosts *)

(** A class whose static [extension-kind] is [k]. *)
Definition lintConstructor (k : string) : Value :=
  Object true "class Lint { }" [("extension-kind", Str k)].

(** A plain object that carries the tag [k]. *)
Definition taggedObject (k : string) : Value :=
  Object false "[object Object]" [("extension-kind", Str k)].

Definition moduleExporting (exports : list (string * Value)) : Value :=
  Object false "[object Object]" exports.

(** An [Error] as a host throws it, with the stack the engine recorded. *)
Definition thrownError (message stackText : string) : Value :=
  Object false ("Error: " +:+ message)
    [("message", Str message); ("stack", Str stackText)].

(** A host that finds every name under [/project/node_modules] and whose
    loader ends the same way for every file. *)
Definition hostLoading (outcome : LoadOutcome) : ExtensionHost :=
  {| getCurrentDirectory := Some "/project";
     loadExtension := Some (fun _ => outcome);
     resolvedModule := fun name _ => Some ("/project/node_modules/" +:+ name +:+ "/index.js") |}.

(** A host that can load, but finds no module at all. *)
Definition hostWithoutModules : ExtensionHost :=
  {| getCurrentDirectory := Some "/project";
     loadExtension := Some (fun _ => Returns Undefined);
     resolvedModule := fun _ _ => None |}.

Definition noStack : string -> Value := fun _ => Undefined.

(** [s] with one more diagnostic. *)
Definition withDiagnostic (s : Cache.state) (d : Diagnostic) : Cache.state :=
  {| Cache.diagnostics := Cache.diagnostics s ++ [d];
     Cache.extensions := Cache.extensions s;
     Cache.loadCalls := Cache.loadCalls s |}.

(** [s] with one more recorded load. *)
Definition withLoadCall (s : Cache.state) (path : string) : Cache.state :=
  {| Cache.diagnostics := Cache.diagnostics s;
     Cache.extensions := Cache.extensions s;
     Cache.loadCalls := Cache.loadCalls s ++ [path] |}.

(** * Properties *)

(** The record that [ext.profiles[task]] reads, when it reads one: an own
    entry, or the record installed as prototype. *)
Definition recordOf (realm : Realm) (ext : Extension) (task : string)
  : option ProfileData :=
  match profiles ext with
  | Some p =>
    match getProfile realm p task with
    | OwnRecord r | PrototypeRecord r => Some r
    | _ => None
    end
  | None => None
  end.

(** What [profiles[key]] reads on a descriptor, a descriptor without
    [profiles] counting as one with a fresh [{}]. *)
Definition lookupProfile (realm : Realm) (ext : Extension) (key : string) : Lookup :=
  getProfile realm
    (match profiles ext with
     | Some p => p
     | None => {| entries := ∅; prototype := None |}
     end) key.

(** An unchanged [Object.prototype]. *)
Definition pristine : Realm := {| objectPrototypeHasLength := false |}.

(** ** Discovery *)

(** The name a descriptor gets from the module and the export key. *)
Definition descriptorName (moduleName key : string) : string :=
  if String.eqb key "default" then moduleName
  else moduleName +:+ "[" +:+ key +:+ "]".

(** The arguments configured for a module: the value the mapping has for
    the name, and [undefined] when the names were given as a sequence. *)
Definition configuredArgs (extOptions : ExtensionsOption) (moduleName : string) : Value :=
  match extOptions with
  | NameMap entries => lookupProperty moduleName entries
  | NameList _ | NoExtensions => Undefined
  end.

Definition knownKind (k : string) : bool :=
  String.eqb k ExtensionKind.SemanticLint || String.eqb k ExtensionKind.SyntacticLint.

(** [d] is the descriptor of the export [key : v] of module [moduleName]. *)
Definition describes (extOptions : ExtensionsOption) (moduleName key : string)
    (v : Value) (d : Extension) : Prop :=
  name d = descriptorName moduleName key /\
  args d = configuredArgs extOptions moduleName /\
  getProperty v "extension-kind" = Str (kind d) /\
  profiles d = None /\
  (if knownKind (kind d)
   then typeof v = "function" /\ ctor d = Some v /\ __extension d = None
   else ctor d = None /\ __extension d = Some v).

(** [d] stems from an export of a module that the host resolved and
    loaded for one of the configured names. *)
Definition loadedFrom (options : CompilerOptions) (host : ExtensionHost)
    (d : Extension) : Prop :=
  exists moduleName load path exports key v,
    moduleName ∈ extensionNamesOf (extensions options) /\
    loadExtension host = Some load /\
    resolvedModule host moduleName
      (combinePaths (currentDirectoryOf host) "tsconfig.json") = Some path /\
    load path = Returns exports /\
    (key, v) ∈ ownProperties exports /\
    describes (extensions options) moduleName key v d.

(** What an accessor answers once the map is memoized. *)
Definition memoizedAnswer (s : Cache.state) (groups : gmap string (list Extension))
    (a : Accessor) : Answer :=
  match a with
  | GetCompilerExtensions => Extensions groups
  | GetExtensionLoadingDiagnostics => Diagnostics (Cache.diagnostics s)
  end.

(** What a computation leaves alone: the memoized map and the record of
    the loads. *)
Definition sameLoads (s s' : Cache.state) : Prop :=
  Cache.loadCalls s' = Cache.loadCalls s /\ Cache.extensions s' = Cache.extensions s.

(** ** Notions for the further properties *)

(** The diagnostic the loader records for the error [e]; its argument is
    [error.stack ? `${error}...${error.stack}` : error]. *)
Definition loadDiagnostic (e : Value) : Diagnostic :=
  createCompilerDiagnostic Extension_loading_failed_with_error_0
    [if truthy (getProperty e "stack")
     then Str (ToString e +:+ stackTraceSeparator +:+ ToString (getProperty e "stack"))
     else e].

(** An export the classifier gets past without a diagnostic and without
    giving up its aggregate: a truthy value that, when it is tagged with a
    known kind, is a function. *)
Definition classifiable (v : Value) : bool :=
  truthy v &&
  match getProperty v "extension-kind" with
  | Str k => if knownKind k then String.eqb (typeof v) "function" else true
  | _ => true
  end.

(** The descriptor of the export [key : v] of module [moduleName], if the
    export carries a string tag. *)
Definition descriptorOf (extOptions : ExtensionsOption) (moduleName key : string)
    (v : Value) : option Extension :=
  match getProperty v "extension-kind" with
  | Str k =>
    Some {| name := descriptorName moduleName key;
            args := configuredArgs extOptions moduleName;
            kind := k;
            profiles := None;
            ctor := if knownKind k then Some v else None;
            __extension := if knownKind k then None else Some v |}
  | _ => None
  end.

(** The descriptors of the tagged exports of a module, in enumeration
    order. *)
Definition descriptorsOf (extOptions : ExtensionsOption) (moduleName : string)
    (exports : Value) : list Extension :=
  omap (fun kv => descriptorOf extOptions moduleName (fst kv) (snd kv))
       (ownProperties exports).

(** What the host's loader returns for a configured name; [undefined] when
    the name is not loaded or the load throws. *)
Definition loadedExports (host : ExtensionHost) (name : string) : Value :=
  match loadExtension host with
  | Some load =>
    match resolvedModule host name
            (combinePaths (currentDirectoryOf host) "tsconfig.json") with
    | Some path => match load path with Returns v => v | Throws _ => Undefined end
    | None => Undefined
    end
  | None => Undefined
  end.

(** The error the loader ends up with for a configured name: the [Error]
    it makes when the host cannot load or cannot find the module, what the
    load threw, or [undefined] when the load returned. *)
Definition loadErrorOf (stack : string -> Value) (host : ExtensionHost)
    (name : string) : Value :=
  match loadExtension host with
  | Some load =>
    match resolvedModule host name
            (combinePaths (currentDirectoryOf host) "tsconfig.json") with
    | Some path => match load path with Returns _ => Undefined | Throws e => e end
    | None => newError stack ("Host could not locate extension '" +:+ name +:+ "'.")
    end
  | None => newError stack "Extension loading not implemented in host!"
  end.

(** The load diagnostics of a sequence of names: one for each name whose
    error is truthy, in the order of the names. *)
Definition loadDiagnosticsOf (stack : string -> Value) (host : ExtensionHost)
    (names : list string) : list Diagnostic :=
  flat_map (fun name =>
              if truthy (loadErrorOf stack host name)
              then [loadDiagnostic (loadErrorOf stack host name)]
              else [])
           names.

(** The state only grows: what was recorded stays, in its place. *)
Definition grows (s s' : Cache.state) : Prop :=
  Cache.diagnostics s `prefix_of` Cache.diagnostics s' /\
  Cache.loadCalls s `prefix_of` Cache.loadCalls s'.


(** ** Profiling recorder: proofs *)

Lemma getProfile_assign realm p key r :
  getProfile realm (assignProfile p key r) key = OwnRecord r \/
  getProfile realm (assignProfile p key r) key = PrototypeRecord r.
Proof.
  unfold assignProfile.
  destruct (entries p !! key) as [r0 |] eqn:Hown.
  - left. unfold getProfile; simpl. rewrite lookup_insert_eq. reflexivity.
  - destruct (String.eqb key "__proto__") eqn:Hkey.
    + right. unfold getProfile; simpl. rewrite Hown, Hkey. reflexivity.
    + left. unfold getProfile; simpl. rewrite lookup_insert_eq. reflexivity.
Qed.

Lemma recordOf_start realm now ext t :
  recordOf realm (startExtensionProfile now ext t) t
  = Some {| task := t; start := now; length := -1 |}.
Proof.
  unfold recordOf, startExtensionProfile; simpl.
  match goal with
  | |- context [getProfile realm (assignProfile ?p t ?r) t] =>
    destruct (getProfile_assign realm p t r) as [H | H]; rewrite H; reflexivity
  end.
Qed.

Lemma completeExtensionProfile_recorded strict now realm ext t r :
  recordOf realm ext t = Some r ->
  exists ext',
    completeExtensionProfile strict now realm ext t = Normal (realm, ext') /\
    recordOf realm ext' t = Some (setLength r (now - start r)).
Proof.
  unfold recordOf, completeExtensionProfile.
  destruct (profiles ext) as [p |] eqn:Hp; [| discriminate]. simpl.
  destruct (getProfile realm p t) as [r0 | r0 | | | v |] eqn:Hfound; try discriminate;
    intros [= ->]; simpl; eexists; (split; [reflexivity |]); simpl.
  - unfold getProfile; simpl. rewrite lookup_insert_eq. reflexivity.
  - unfold getProfile in Hfound |- *; simpl.
    destruct (entries p !! t); [discriminate |].
    destruct (String.eqb t "__proto__"); [reflexivity |].
    destruct (prototype p) as [r1 |];
      [destruct (inheritedFromRecord r1 t) |]; try discriminate;
      unfold inheritedFromObjectPrototype in Hfound;
      destruct (bool_decide (t ∈ objectPrototypeMembers)); try discriminate;
      destruct (String.eqb t "length" && objectPrototypeHasLength realm); discriminate.
Qed.

Lemma member_is_plain_key t :
  t ∈ objectPrototypeMembers ->
  String.eqb t "__proto__" = false /\ forall r, inheritedFromRecord r t = None.
Proof.
  unfold objectPrototypeMembers. intros H.
  repeat (apply elem_of_cons in H as [-> | H]; [split; reflexivity |]).
  apply elem_of_nil in H. contradiction.
Qed.

(** C8, as the code has it: starting a task and then completing it leaves
    a record for the task, whatever the task is called; its [start] is the
    reading taken by the start call and its [length] the reading taken by
    the complete call minus that start, which is not negative exactly when
    the clock did not run backwards in between.  Starting a task installs
    a fresh in-flight record for it whether or not it had one before. *)
Theorem start_then_complete_profile (strict : bool) (realm : Realm) (d : Extension)
    (T : string) (t0 t1 : Z) :
  (exists d' r,
      completeExtensionProfile strict t1 realm (startExtensionProfile t0 d T) T
      = Normal (realm, d') /\
      recordOf realm d' T = Some r /\
      task r = T /\ start r = t0 /\ length r = t1 - t0 /\
      (0 <= length r <-> t0 <= t1)) /\
  recordOf realm (startExtensionProfile t0 d T) T
  = Some {| task := T; start := t0; length := -1 |}.
Proof.
  split; [| apply recordOf_start].
  destruct (completeExtensionProfile_recorded strict t1 realm _ T _
              (recordOf_start realm t0 d T)) as (d' & Hrun & Hrec).
  exists d'. eexists. split; [exact Hrun |]. split; [exact Hrec |].
  simpl. repeat split; lia.
Qed.

Lemma start_then_complete_profile_witness :
  let d := {| name := "lint"; args := Undefined; kind := "syntactic-lint";
              profiles := None; ctor := None; __extension := None |} in
  exists d' r,
    completeExtensionProfile false 1250 pristine (startExtensionProfile 1000 d "__proto__")
      "__proto__" = Normal (pristine, d') /\
    recordOf pristine d' "__proto__" = Some r /\
    task r = "__proto__" /\ start r = 1000 /\ length r = 1250 - 1000 /\
    (0 <= length r <-> 1000 <= 1250).
Proof.
  intros d.
  exact (proj1 (start_then_complete_profile false pristine d "__proto__" 1000 1250)).
Defined.

(** C8, as stated, fails: when the clock is set back between the two
    calls, the length of the completed record is negative. *)
Lemma clock_set_back_gives_negative_length :
  let d := {| name := "lint"; args := Undefined; kind := "syntactic-lint";
              profiles := None; ctor := None; __extension := None |} in
  exists d' r,
    completeExtensionProfile false 1000 pristine (startExtensionProfile 1250 d "walk") "walk"
    = Normal (pristine, d') /\
    recordOf pristine d' "walk" = Some r /\
    length r = -250 /\
    ~ (0 <= length r).
Proof.
  intros d. eexists _, _. split; [reflexivity |]. split; [reflexivity |].
  split; [reflexivity |]. simpl. lia.
Qed.

(** C9, as the code has it: completing a task ends in the first failed
    assertion when the descriptor has no [profiles], and in the second one
    when [profiles[T]] reads nothing truthy, as for a task that was never
    started and whose name [Object.prototype] does not have; a call that
    follows a start of the task returns.  But for a task never started
    whose name is a member of [Object.prototype], such as "toString", the
    second assertion sees the inherited function and does not fire: the
    call returns with the descriptor unchanged, or raises a [TypeError] in
    strict mode, never the assertion. *)
Theorem complete_profile_requires_start (strict : bool) (now : Z) (realm : Realm)
    (d : Extension) (T : string) :
  (profiles d = None ->
   completeExtensionProfile strict now realm d T
   = Abrupt (DebugFailure "Completed profile, but extension has no started profiles.")) /\
  (forall p, profiles d = Some p -> lookupTruthy (getProfile realm p T) = false ->
   completeExtensionProfile strict now realm d T
   = Abrupt (DebugFailure "Completed profile did not have a corresponding start.")) /\
  (forall p, profiles d = Some p -> entries p !! T = None -> prototype p = None ->
   T ∉ objectPrototypeMembers -> T <> "__proto__" ->
   completeExtensionProfile strict now realm d T
   = Abrupt (DebugFailure "Completed profile did not have a corresponding start.")) /\
  (forall p, profiles d = Some p -> entries p !! T = None ->
   T ∈ objectPrototypeMembers ->
   completeExtensionProfile strict now realm d T
   = if strict then Abrupt (TypeError "length") else Normal (realm, d)) /\
  (forall t0, exists d',
      completeExtensionProfile strict now realm (startExtensionProfile t0 d T) T
      = Normal (realm, d')).
Proof.
  assert (Hfalsy : forall p, profiles d = Some p ->
            lookupTruthy (getProfile realm p T) = false ->
            completeExtensionProfile strict now realm d T
            = Abrupt (DebugFailure "Completed profile did not have a corresponding start.")).
  { intros p Hp Hf. unfold completeExtensionProfile. rewrite Hp; simpl.
    rewrite Hf. reflexivity. }
  split; [| split; [exact Hfalsy | split; [| split]]].
  - intros Hp. unfold completeExtensionProfile. rewrite Hp. reflexivity.
  - intros p Hp Hown Hproto Hmember Hkey. apply (Hfalsy p Hp).
    unfold getProfile. rewrite Hown, Hproto.
    apply String.eqb_neq in Hkey. rewrite Hkey.
    unfold inheritedFromObjectPrototype. rewrite bool_decide_false by assumption.
    destruct (String.eqb T "length" && objectPrototypeHasLength realm); reflexivity.
  - intros p Hp Hown Hmember.
    destruct (member_is_plain_key T Hmember) as [Hkey Hfield].
    assert (Hfound : getProfile realm p T = InheritedMethod).
    { unfold getProfile. rewrite Hown, Hkey.
      unfold inheritedFromObjectPrototype. rewrite bool_decide_true by assumption.
      destruct (prototype p) as [r |]; [rewrite Hfield |]; reflexivity. }
    unfold completeExtensionProfile. rewrite Hp; simpl. rewrite Hfound. reflexivity.
  - intros t0.
    destruct (completeExtensionProfile_recorded strict now realm _ T _
                (recordOf_start realm t0 d T)) as (d' & Hrun & _).
    exists d'. exact Hrun.
Qed.

Lemma complete_profile_requires_start_witness :
  let d := startExtensionProfile 3
             {| name := "lint"; args := Undefined; kind := "semantic-lint";
                profiles := None; ctor := None; __extension := None |} "walk" in
  completeExtensionProfile false 7 pristine d "toString" = Normal (pristine, d) /\
  completeExtensionProfile true 7 pristine d "toString" = Abrupt (TypeError "length") /\
  completeExtensionProfile false 7 pristine d "check"
  = Abrupt (DebugFailure "Completed profile did not have a corresponding start.").
Proof.
  intros d. split; [| split].
  - apply (proj1 (proj2 (proj2 (proj2
             (complete_profile_requires_start false 7 pristine d "toString"))))
             {| entries := {["walk" := {| task := "walk"; start := 3; length := -1 |}]};
                prototype := None |}).
    + reflexivity.
    + vm_compute. reflexivity.
    + unfold objectPrototypeMembers. apply list_elem_of_further, list_elem_of_here.
  - apply (proj1 (proj2 (proj2 (proj2
             (complete_profile_requires_start true 7 pristine d "toString"))))
             {| entries := {["walk" := {| task := "walk"; start := 3; length := -1 |}]};
                prototype := None |}).
    + reflexivity.
    + vm_compute. reflexivity.
    + unfold objectPrototypeMembers. apply list_elem_of_further, list_elem_of_here.
  - apply (proj1 (proj2 (complete_profile_requires_start false 7 pristine d "check"))
             {| entries := {["walk" := {| task := "walk"; start := 3; length := -1 |}]};
                prototype := None |}).
    + reflexivity.
    + vm_compute. reflexivity.
Defined.

(** ** Computations in [M] *)

Lemma bind_inv {A B} (m : M A) (k : A -> M B) s c s' :
  bind m k s = (c, s') ->
  (exists e, m s = (Abrupt e, s') /\ c = Abrupt e) \/
  (exists a s1, m s = (Normal a, s1) /\ k a s1 = (c, s')).
Proof.
  unfold bind. destruct (m s) as [[a | e] s1]; intros H.
  - right. eauto.
  - left. inversion H; subst. eauto.
Qed.

Lemma bind_normal {A B} (m : M A) (k : A -> M B) s a s1 :
  m s = (Normal a, s1) -> bind m k s = k a s1.
Proof. intros H. unfold bind. rewrite H. reflexivity. Qed.

Lemma mapArray_normal {T U} (f : T -> M U) (l : list T) :
  forall s us s',
    mapArray l f s = (Normal us, s') ->
    Forall2 (fun x u => exists s1 s2, f x s1 = (Normal u, s2)) l us.
Proof.
  induction l as [| x l IH]; simpl; intros s us s' H.
  - inversion H. constructor.
  - apply bind_inv in H as [(e & _ & He) | (u & s1 & Hf & H)]; [discriminate |].
    apply bind_inv in H as [(e & _ & He) | (us' & s2 & Hm & H)]; [discriminate |].
    inversion H; subst. constructor; eauto.
Qed.

Lemma sameLoads_refl s : sameLoads s s.
Proof. split; reflexivity. Qed.

Lemma sameLoads_trans s1 s2 s3 : sameLoads s1 s2 -> sameLoads s2 s3 -> sameLoads s1 s3.
Proof. intros [H1 H2] [H3 H4]. split; congruence. Qed.

Lemma mapArray_sameLoads {T U} (f : T -> M U) (l : list T) :
  (forall x s c s', f x s = (c, s') -> sameLoads s s') ->
  forall s c s', mapArray l f s = (c, s') -> sameLoads s s'.
Proof.
  intros Hf. induction l as [| x l IH]; simpl; intros s c s' H.
  - inversion H. apply sameLoads_refl.
  - apply bind_inv in H as [(e & H & _) | (u & s1 & H1 & H)]; [eauto |].
    apply bind_inv in H as [(e & H & _) | (us & s2 & H2 & H)].
    + eapply sameLoads_trans; eauto.
    + inversion H; subst. eapply sameLoads_trans; eauto.
Qed.

Lemma reduceLoop_sameLoads {U} (callback : U -> Value -> string -> M U) props :
  (forall a v key s c s', callback a v key s = (c, s') -> sameLoads s s') ->
  forall result s c s', reduceLoop callback props result s = (c, s') -> sameLoads s s'.
Proof.
  intros Hf. induction props as [| [key v] props IH]; simpl; intros result s c s' H.
  - inversion H. apply sameLoads_refl.
  - apply bind_inv in H as [(e & H & _) | (u & s1 & H1 & H)]; [eauto |].
    eapply sameLoads_trans; eauto.
Qed.

Lemma pushDiagnostic_sameLoads d s c s' :
  pushDiagnostic d s = (c, s') -> sameLoads s s'.
Proof. intros H. inversion H; subst. split; reflexivity. Qed.

(** ** Grouping and flattening *)

Lemma groupBy_fold_elem {T} (classifier : T -> string) (array : list T) :
  forall (acc : gmap string (list T)) k g d,
    fold_left (groupByAdd classifier) array acc !! k = Some g ->
    d ∈ g ->
    (exists g0, acc !! k = Some g0 /\ d ∈ g0) \/ (d ∈ array /\ classifier d = k).
Proof.
  induction array as [| x array IH]; simpl; intros acc k g d Hg Hd.
  - left. eauto.
  - destruct (IH _ _ _ _ Hg Hd) as [(g0 & Hg0 & Hd0) | [Hin Hk]].
    + unfold groupByAdd in Hg0. destruct (decide (classifier x = k)) as [Heq | Hne].
      * subst k. rewrite lookup_insert_eq in Hg0. inversion Hg0; subst g0.
        apply elem_of_app in Hd0 as [Hd0 | Hd0].
        -- left. destruct (acc !! classifier x) as [g1 |] eqn:Hacc.
           ++ exists g1. split; [reflexivity | assumption].
           ++ apply elem_of_nil in Hd0. contradiction.
        -- apply list_elem_of_singleton in Hd0. subst d.
           right. split; [apply list_elem_of_here | reflexivity].
      * rewrite lookup_insert_ne in Hg0 by assumption. left. eauto.
    + right. split; [by apply list_elem_of_further | assumption].
Qed.

Lemma groupBy_elem {T} (classifier : T -> string) (array : list T) groups k g d :
  groupBy array classifier = Some groups ->
  groups !! k = Some g -> d ∈ g ->
  d ∈ array /\ classifier d = k.
Proof.
  unfold groupBy. destruct array as [| x array]; [discriminate |].
  intros [= <-] Hg Hd.
  destruct (groupBy_fold_elem classifier (x :: array) ∅ k g d Hg Hd)
    as [(g0 & Hg0 & _) | H]; [| exact H].
  rewrite lookup_empty in Hg0. discriminate.
Qed.

Lemma flatten_elem keep (array : list (option (list Extension))) :
  forall flat d,
    flatten keep array = Normal flat -> d ∈ flat ->
    exists exts, Some exts ∈ array /\ d ∈ exts.
Proof.
  induction array as [| [v |] array IH]; simpl; intros flat d H Hd.
  - inversion H; subst. apply elem_of_nil in Hd. contradiction.
  - destruct (flatten keep array) as [result | e] eqn:Hf; [| discriminate].
    inversion H; subst. apply elem_of_app in Hd as [Hd | Hd].
    + exists v. split; [apply list_elem_of_here | assumption].
    + destruct (IH _ _ eq_refl Hd) as (exts & Hin & Hd').
      exists exts. split; [by apply list_elem_of_further | assumption].
  - destruct keep; [discriminate |].
    destruct (IH _ _ H Hd) as (exts & Hin & Hd').
    exists exts. split; [by apply list_elem_of_further | assumption].
Qed.

Lemma Forall2_elem_r {A B} (P : A -> B -> Prop) (l : list A) (k : list B) y :
  Forall2 P l k -> y ∈ k -> exists x, x ∈ l /\ P x y.
Proof.
  induction 1 as [| x y' l k Hxy _ IH]; intros Hy.
  - apply elem_of_nil in Hy. contradiction.
  - apply elem_of_cons in Hy as [-> | Hy].
    + exists x. split; [apply list_elem_of_here | exact Hxy].
    + destruct (IH Hy) as (x' & Hin & Hp).
      exists x'. split; [by apply list_elem_of_further | exact Hp].
Qed.

(** ** The discovery pass *)

Section DiscoveryFacts.

Variable keep : bool.
Variable stack : string -> Value.
Variable options : CompilerOptions.
Variable host : ExtensionHost.

(** Loading one name never raises; it calls the host at most once, only
    for a name that resolved. *)
Lemma loadExtensionNamed_returns cwd name s :
  exists res s',
    loadExtensionNamed stack host cwd name s = (Normal res, s') /\
    Res.name res = name /\
    Cache.extensions s' = Cache.extensions s /\
    Cache.loadCalls s'
    = (Cache.loadCalls s ++
       match loadExtension host with
       | Some _ => option_list (resolvedModule host name (combinePaths cwd "tsconfig.json"))
       | None => []
       end)%list /\
    (truthy (Res.result res) = true ->
     exists load path,
       loadExtension host = Some load /\
       resolvedModule host name (combinePaths cwd "tsconfig.json") = Some path /\
       load path = Returns (Res.result res)).
Proof.
  unfold loadExtensionNamed.
  destruct (loadExtension host) as [load |] eqn:Hload.
  - destruct (resolvedModule host name (combinePaths cwd "tsconfig.json"))
      as [path |] eqn:Hres.
    + unfold bind at 1. unfold bind at 1. unfold callLoadExtension at 1.
      destruct (load path) as [v | e] eqn:Hout; simpl.
      * unfold bind, ret; simpl. eexists _, _. split; [reflexivity |].
        simpl. repeat split; eauto.
      * destruct (truthy e) eqn:He; unfold bind, ret, pushDiagnostic; simpl;
          (eexists _, _; split; [reflexivity |]; simpl; repeat split; auto; discriminate).
    + unfold bind, ret, pushDiagnostic; simpl. eexists _, _. split; [reflexivity |].
      simpl. rewrite app_nil_r. repeat split; auto; discriminate.
  - unfold bind, ret, pushDiagnostic; simpl. eexists _, _. split; [reflexivity |].
    simpl. rewrite app_nil_r. repeat split; auto; discriminate.
Qed.

Lemma load_phase cwd names :
  forall s, exists results s',
    mapArray names (loadExtensionNamed stack host cwd) s = (Normal results, s') /\
    Cache.extensions s' = Cache.extensions s /\
    Cache.loadCalls s'
    = (Cache.loadCalls s ++
       match loadExtension host with
       | Some _ =>
         omap (fun name => resolvedModule host name (combinePaths cwd "tsconfig.json")) names
       | None => []
       end)%list.
Proof.
  induction names as [| name names IH]; intros s; simpl.
  - exists [], s. repeat split; auto.
    destruct (loadExtension host); simpl; by rewrite app_nil_r.
  - destruct (loadExtensionNamed_returns cwd name s)
      as (res & s1 & Hrun & _ & Hext & Hcalls & _).
    destruct (IH s1) as (results & s2 & Hrest & Hext2 & Hcalls2).
    exists (res :: results), s2. split.
    { erewrite bind_normal by exact Hrun. erewrite bind_normal by exact Hrest. reflexivity. }
    split; [congruence |].
    rewrite Hcalls2, Hcalls. rewrite <- app_assoc. f_equal.
    destruct (loadExtension host); [| reflexivity].
    destruct (resolvedModule host name (combinePaths cwd "tsconfig.json")); reflexivity.
Qed.

Lemma argsFor_inv extOptions resName s c s' :
  argsFor extOptions resName s = (c, s') ->
  s' = s /\ forall a, c = Normal a -> a = configuredArgs extOptions resName.
Proof.
  destruct extOptions; simpl; unfold ret, throw; intros [= <- <-];
    (split; [reflexivity |]); intros a [= <-] || intros a [=]; reflexivity.
Qed.

Lemma pushExtension_inv aggregate ext s c s' :
  pushExtension aggregate ext s = (c, s') ->
  s' = s /\
  forall out, c = Normal (Some out) ->
    exists exts, aggregate = Some exts /\ out = (exts ++ [ext])%list.
Proof.
  destruct aggregate as [exts |]; simpl; unfold ret, throw; intros [= <- <-].
  - split; [reflexivity |]. intros out [= <-]. eauto.
  - split; [reflexivity |]. intros out [=].
Qed.

(** One export either leaves the aggregate as it is, or appends its own
    descriptor to it, or loses it. *)
Lemma classifyExport_inv res aggregate v key s c s' :
  classifyExport options res aggregate v key s = (c, s') ->
  sameLoads s s' /\
  forall out, c = Normal (Some out) ->
    aggregate = Some out \/
    exists exts d,
      aggregate = Some exts /\ out = (exts ++ [d])%list /\
      describes (extensions options) (Res.name res) key v d.
Proof.
  unfold classifyExport.
  destruct (truthy v) eqn:Hv; simpl.
  2: { intros [= <- <-]. split; [apply sameLoads_refl | intros out [=]]. }
  destruct (getProperty v "extension-kind") as [| | | | | k |] eqn:Hk;
    try (intros [= <- <-]; split; [apply sameLoads_refl | intros out [= ->]; by left]).
  intros H. apply bind_inv in H as [(e & H & ->) | (a & s1 & Ha & H)].
  { apply argsFor_inv in H as [-> _]. split; [apply sameLoads_refl | intros out [=]]. }
  apply argsFor_inv in Ha as [-> Ha]. specialize (Ha a eq_refl).
  fold (knownKind k) in H.
  destruct (knownKind k) eqn:Hknown.
  - destruct (String.eqb (typeof v) "function") eqn:Hfun; simpl in H.
    + apply pushExtension_inv in H as [-> H]. split; [apply sameLoads_refl |].
      intros out Hc. destruct (H out Hc) as (exts & -> & ->). right.
      eexists _, _. split; [reflexivity |]. split; [reflexivity |].
      unfold describes, descriptorName; simpl. rewrite Hknown.
      apply String.eqb_eq in Hfun.
      destruct (String.eqb key "default"); simpl; repeat split; auto.
    + apply bind_inv in H as [(e & H & ->) | (u & s2 & Hp & H)].
      * split; [eapply pushDiagnostic_sameLoads; eassumption | intros out [=]].
      * inversion H; subst. split; [eapply pushDiagnostic_sameLoads; eassumption |].
        intros out [=].
  - apply pushExtension_inv in H as [-> H]. split; [apply sameLoads_refl |].
    intros out Hc. destruct (H out Hc) as (exts & -> & ->). right.
    eexists _, _. split; [reflexivity |]. split; [reflexivity |].
    unfold describes, descriptorName; simpl. rewrite Hknown.
    destruct (String.eqb key "default"); simpl; repeat split; auto.
Qed.

Lemma reduceLoop_classify res (all props : list (string * Value)) :
  (forall kv, kv ∈ props -> kv ∈ all) ->
  forall aggregate s out s',
    reduceLoop (classifyExport options res) props aggregate s = (Normal (Some out), s') ->
    (forall exts, aggregate = Some exts ->
       Forall (fun d => exists key v, (key, v) ∈ all /\
                 describes (extensions options) (Res.name res) key v d) exts) ->
    Forall (fun d => exists key v, (key, v) ∈ all /\
              describes (extensions options) (Res.name res) key v d) out.
Proof.
  induction props as [| [key v] props IH]; simpl; intros Hall aggregate s out s' H Hagg.
  - inversion H; subst. by apply Hagg.
  - apply bind_inv in H as [(e & _ & He) | (next & s1 & Hstep & H)]; [discriminate |].
    eapply IH; [| exact H |].
    + intros kv Hkv. apply Hall. by apply list_elem_of_further.
    + intros exts ->.
      destruct (classifyExport_inv _ _ _ _ _ _ _ Hstep) as [_ Hinv].
      destruct (Hinv exts eq_refl) as [-> | (exts0 & d & -> & -> & Hd)].
      * by apply Hagg.
      * apply Forall_app. split; [by apply Hagg |].
        constructor; [| constructor].
        exists key, v. split; [apply Hall, list_elem_of_here | exact Hd].
Qed.

Lemma prepareExtensionObject_inv res s out s' :
  prepareExtensionObject options res s = (Normal (Some out), s') ->
  Forall (fun d => exists key v,
            truthy (Res.result res) = true /\
            (key, v) ∈ ownProperties (Res.result res) /\
            describes (extensions options) (Res.name res) key v d) out.
Proof.
  unfold prepareExtensionObject, reduceProperties.
  destruct (truthy (Res.result res)) eqn:Ht.
  - intros H.
    eapply Forall_impl.
    + eapply (reduceLoop_classify res (ownProperties (Res.result res))); [| exact H |].
      * auto.
      * intros exts [= <-]. constructor.
    + simpl. intros d (key & v & Hin & Hd). eauto.
  - intros [= <- <-]. constructor.
Qed.

Lemma prepareExtensionObject_sameLoads res s c s' :
  prepareExtensionObject options res s = (c, s') -> sameLoads s s'.
Proof.
  unfold prepareExtensionObject, reduceProperties.
  destruct (truthy (Res.result res)).
  - apply reduceLoop_sameLoads. intros a v key s0 c0 s0' H.
    by destruct (classifyExport_inv _ _ _ _ _ _ _ H).
  - intros [= <- <-]. apply sameLoads_refl.
Qed.

(** What one discovery pass that returns has done: every descriptor it
    grouped stems from an export of a loaded module and sits in the group
    of its kind, and the host was asked once for each name that resolved. *)
Lemma collectCompilerExtensions_inv s groups s' :
  collectCompilerExtensions keep stack options host s = (Normal groups, s') ->
  (forall k g d, groups !! k = Some g -> d ∈ g ->
     kind d = k /\ loadedFrom options host d) /\
  Cache.loadCalls s' = (Cache.loadCalls s ++ expectedLoadCalls options host)%list.
Proof.
  unfold collectCompilerExtensions. intros H.
  set (cwd := match getCurrentDirectory host with Some c => c | None => "" end) in *.
  destruct (load_phase cwd (extensionNamesOf (extensions options)) s)
    as (results & s1 & Hload & _ & Hcalls).
  pose proof (mapArray_normal _ _ _ _ _ Hload) as Hres.
  erewrite bind_normal in H by exact Hload.
  apply bind_inv in H as [(e & _ & He) | (prepared & s2 & Hprep & H)]; [discriminate |].
  pose proof (mapArray_normal _ _ _ _ _ Hprep) as Hprepared.
  pose proof (mapArray_sameLoads _ _ prepareExtensionObject_sameLoads _ _ _ Hprep)
    as [Hsame _].
  destruct (flatten keep prepared) as [flat | e] eqn:Hflat; [| discriminate].
  inversion H; subst; clear H. split.
  - intros k g d Hg Hd.
    destruct (groupBy flat kind) as [groups |] eqn:Hgroup.
    2: { rewrite lookup_empty in Hg. discriminate. }
    destruct (groupBy_elem _ _ _ _ _ _ Hgroup Hg Hd) as [Hin Hk].
    split; [exact Hk |].
    destruct (flatten_elem _ _ _ _ Hflat Hin) as (exts & Hexts & Hdexts).
    destruct (Forall2_elem_r _ _ _ _ Hprepared Hexts) as (res & Hres_in & s3 & s4 & Hrun).
    pose proof (prepareExtensionObject_inv _ _ _ _ Hrun) as Hall.
    rewrite Forall_forall in Hall.
    destruct (Hall d Hdexts) as (key & v & Htruthy & Hkv & Hdesc).
    apply list_elem_of_In, filter_In in Hres_in as [Hres_in _].
    apply list_elem_of_In in Hres_in.
    destruct (Forall2_elem_r _ _ _ _ Hres Hres_in) as (name & Hname & s5 & s6 & Hloaded).
    destruct (loadExtensionNamed_returns cwd name s5)
      as (res' & s6' & Hrun' & Hresname & _ & _ & Hsource).
    rewrite Hloaded in Hrun'. inversion Hrun'; subst res' s6'; clear Hrun'.
    destruct (Hsource Htruthy) as (load & path & Hl & Hr & Hp).
    subst name.
    exists (Res.name res), load, path, (Res.result res), key, v.
    do 5 (split; [assumption |]). exact Hdesc.
  - rewrite Hsame, Hcalls. unfold expectedLoadCalls, currentDirectoryOf. reflexivity.
Qed.

Lemma getCompilerExtensions_first s groups s' :
  Cache.extensions s = None ->
  getCompilerExtensions keep stack options host s = (Normal groups, s') ->
  Cache.extensions s' = Some groups /\
  exists s1,
    collectCompilerExtensions keep stack options host s = (Normal groups, s1) /\
    Cache.loadCalls s' = Cache.loadCalls s1 /\
    Cache.diagnostics s' = Cache.diagnostics s1.
Proof.
  unfold getCompilerExtensions. intros ->.
  destruct (collectCompilerExtensions keep stack options host s) as [[g | e] s1];
    intros [= <- <-]; simpl. eauto.
Qed.

Lemma getCompilerExtensions_memoized s groups :
  Cache.extensions s = Some groups ->
  getCompilerExtensions keep stack options host s = (Normal groups, s).
Proof. unfold getCompilerExtensions. intros ->. reflexivity. Qed.

Lemma callAccessor_memoized s groups a :
  Cache.extensions s = Some groups ->
  callAccessor keep stack options host a s = (Normal (memoizedAnswer s groups a), s).
Proof.
  intros H. destruct a; simpl; unfold getExtensionLoadingDiagnostics.
  - erewrite bind_normal by (apply getCompilerExtensions_memoized; exact H). reflexivity.
  - erewrite bind_normal.
    2: { erewrite bind_normal by (apply getCompilerExtensions_memoized; exact H).
         reflexivity. }
    reflexivity.
Qed.

Lemma callAccessor_first a r s' :
  callAccessor keep stack options host a createExtensionCache = (Normal r, s') ->
  exists groups,
    Cache.extensions s' = Some groups /\
    r = memoizedAnswer s' groups a /\
    getCompilerExtensions keep stack options host createExtensionCache = (Normal groups, s').
Proof.
  intros H. destruct a; simpl in H; unfold getExtensionLoadingDiagnostics in H.
  - apply bind_inv in H as [(e & _ & He) | (groups & s1 & Hget & H)]; [discriminate |].
    inversion H; subst. exists groups.
    destruct (getCompilerExtensions_first createExtensionCache _ _ eq_refl Hget)
      as [Hext _]. auto.
  - apply bind_inv in H as [(e & _ & He) | (diags & s1 & Hget & H)]; [discriminate |].
    inversion H; subst; clear H.
    apply bind_inv in Hget as [(e & _ & He) | (groups & s1 & Hget & H)]; [discriminate |].
    inversion H; subst; clear H. exists groups.
    destruct (getCompilerExtensions_first createExtensionCache _ _ eq_refl Hget)
      as [Hext _]. auto.
Qed.

Lemma callAccessors_memoized s groups (calls : list Accessor) :
  Cache.extensions s = Some groups ->
  mapArray calls (callAccessor keep stack options host) s
  = (Normal (List.map (memoizedAnswer s groups) calls), s).
Proof.
  intros H. induction calls as [| a calls IH]; simpl; [reflexivity |].
  erewrite bind_normal by (apply callAccessor_memoized; exact H).
  erewrite bind_normal by exact IH. reflexivity.
Qed.

End DiscoveryFacts.

(** ** Loading one name *)

Lemma loadExtensionNamed_loaded stack host cwd name load path v s :
  loadExtension host = Some load ->
  resolvedModule host name (combinePaths cwd "tsconfig.json") = Some path ->
  load path = Returns v ->
  loadExtensionNamed stack host cwd name s
  = (Normal {| Res.name := name; Res.result := v; Res.error := Undefined |},
     withLoadCall s path).
Proof.
  intros Hload Hres Hout. unfold loadExtensionNamed. rewrite Hload, Hres.
  unfold bind, callLoadExtension. rewrite Hout. reflexivity.
Qed.

Lemma loadExtensionNamed_threw stack host cwd name load path e s :
  loadExtension host = Some load ->
  resolvedModule host name (combinePaths cwd "tsconfig.json") = Some path ->
  load path = Throws e ->
  loadExtensionNamed stack host cwd name s
  = (Normal {| Res.name := name; Res.result := Undefined; Res.error := e |},
     if truthy e then
       withDiagnostic (withLoadCall s path)
         (createCompilerDiagnostic Extension_loading_failed_with_error_0
            [if truthy (getProperty e "stack")
             then Str (ToString e +:+ stackTraceSeparator +:+ ToString (getProperty e "stack"))
             else e])
     else withLoadCall s path).
Proof.
  intros Hload Hres Hout. unfold loadExtensionNamed. rewrite Hload, Hres.
  unfold bind, callLoadExtension. rewrite Hout. simpl.
  destruct (truthy e); reflexivity.
Qed.

(** C10: when the host can load, the name resolves and the load returns a
    falsy value without throwing, loading the name records no diagnostic,
    its result passes the filter of the successful loads, and it
    contributes the empty descriptor list; a configuration of that one
    name yields no group and no diagnostic. *)
Theorem falsy_load_result_counts_as_loaded
    (keep : bool) (stack : string -> Value) (options : CompilerOptions)
    (host : ExtensionHost) (name : string)
    (load : string -> LoadOutcome) (path : string) (v : Value) :
  loadExtension host = Some load ->
  resolvedModule host name (combinePaths (currentDirectoryOf host) "tsconfig.json")
  = Some path ->
  load path = Returns v ->
  truthy v = false ->
  (forall s, exists res s',
      loadExtensionNamed stack host (currentDirectoryOf host) name s = (Normal res, s') /\
      Cache.diagnostics s' = Cache.diagnostics s /\
      negb (truthy (Res.error res)) = true /\
      forall s2, prepareExtensionObject options res s2 = (Normal (Some []), s2)) /\
  (extensions options = NameList [name] ->
   exists s',
     getCompilerExtensions keep stack options host createExtensionCache = (Normal ∅, s') /\
     Cache.diagnostics s' = []).
Proof.
  intros Hload Hres Hout Hv. split.
  - intros s. eexists _, _. split.
    { eapply loadExtensionNamed_loaded; eassumption. }
    simpl. split; [reflexivity |]. split; [reflexivity |].
    intros s2. unfold prepareExtensionObject; simpl. rewrite Hv. reflexivity.
  - intros Hopt. unfold getCompilerExtensions, collectCompilerExtensions; simpl.
    rewrite Hopt; simpl.
    fold (currentDirectoryOf host).
    erewrite bind_normal.
    2: { erewrite bind_normal by (eapply loadExtensionNamed_loaded; eassumption).
         reflexivity. }
    simpl. unfold prepareExtensionObject at 1; simpl. rewrite Hv.
    eexists. split; reflexivity.
Qed.

Lemma falsy_load_result_counts_as_loaded_witness :
  exists s',
    getCompilerExtensions false noStack {| extensions := NameList ["quiet"] |}
      (hostLoading (Returns Undefined)) createExtensionCache = (Normal ∅, s') /\
    Cache.diagnostics s' = [].
Proof.
  apply (proj2 (falsy_load_result_counts_as_loaded false noStack
                  {| extensions := NameList ["quiet"] |}
                  (hostLoading (Returns Undefined)) "quiet"
                  (fun _ => Returns Undefined) "/project/node_modules/quiet/index.js"
                  Undefined eq_refl eq_refl eq_refl eq_refl)).
  reflexivity.
Defined.

(** X14: a failure raised by the host's load call never leaves the
    loader, which returns the name with the thrown value as its error.
    When the thrown value is truthy, as every [Error] object is, exactly
    one diagnostic is recorded: it carries the thrown value itself, or,
    when that has a truthy [stack], its text followed by the stack-trace
    separator and the stack verbatim.  A thrown value that is falsy
    records no diagnostic. *)
Theorem load_failure_becomes_diagnostic
    (stack : string -> Value) (host : ExtensionHost) (cwd name : string)
    (load : string -> LoadOutcome) (path : string) (e : Value) (s : Cache.state) :
  loadExtension host = Some load ->
  resolvedModule host name (combinePaths cwd "tsconfig.json") = Some path ->
  load path = Throws e ->
  exists s',
    loadExtensionNamed stack host cwd name s
    = (Normal {| Res.name := name; Res.result := Undefined; Res.error := e |}, s') /\
    (truthy e = true ->
     exists argument,
       Cache.diagnostics s'
       = (Cache.diagnostics s ++
          [createCompilerDiagnostic Extension_loading_failed_with_error_0 [argument]])%list /\
       (truthy (getProperty e "stack") = false -> argument = e) /\
       (truthy (getProperty e "stack") = true ->
        argument = Str (ToString e +:+ stackTraceSeparator +:+
                        ToString (getProperty e "stack"))) /\
       (forall trace, getProperty e "stack" = Str trace -> trace <> "" ->
        argument = Str (ToString e +:+ stackTraceSeparator +:+ trace))) /\
    (truthy e = false -> Cache.diagnostics s' = Cache.diagnostics s).
Proof.
  intros Hload Hres Hout. eexists. split.
  { eapply loadExtensionNamed_threw; eassumption. }
  split.
  - intros He. rewrite He. simpl. eexists. split; [reflexivity |].
    split; [| split].
    + intros ->. reflexivity.
    + intros ->. reflexivity.
    + intros trace Htrace Hne. rewrite Htrace. simpl.
      destruct (String.eqb_spec trace ""); [contradiction | reflexivity].
  - intros He. rewrite He. reflexivity.
Qed.

Lemma load_failure_becomes_diagnostic_witness :
  exists s',
    loadExtensionNamed noStack (hostLoading (Throws (thrownError "boom" "at load (index.js:1:7)")))
      "/project" "broken" createExtensionCache
    = (Normal {| Res.name := "broken"; Res.result := Undefined;
                 Res.error := thrownError "boom" "at load (index.js:1:7)" |}, s') /\
    Cache.diagnostics s'
    = [createCompilerDiagnostic Extension_loading_failed_with_error_0
         [Str ("Error: boom" +:+ stackTraceSeparator +:+ "at load (index.js:1:7)")]].
Proof.
  destruct (load_failure_becomes_diagnostic noStack
              (hostLoading (Throws (thrownError "boom" "at load (index.js:1:7)")))
              "/project" "broken"
              (fun _ => Throws (thrownError "boom" "at load (index.js:1:7)"))
              "/project/node_modules/broken/index.js"
              (thrownError "boom" "at load (index.js:1:7)")
              createExtensionCache eq_refl eq_refl eq_refl)
    as (s' & Hrun & Htruthy & _).
  exists s'. split; [exact Hrun |].
  destruct (Htruthy eq_refl) as (argument & Hdiags & _ & _ & Htrace).
  rewrite Hdiags. rewrite (Htrace "at load (index.js:1:7)" eq_refl); [reflexivity |].
  discriminate.
Defined.

(** C5, as the code has it: a load that throws a falsy value ([null],
    [undefined], [false], [0], [NaN] or the empty string) is caught, but
    [if (error)] then records no diagnostic for it and [!res.error] keeps
    it among the successful loads, where it contributes the empty
    descriptor list.  Configured alone, such a name gives the empty map and
    an empty list of diagnostics, as if nothing had failed. *)
Theorem thrown_falsy_value_is_swallowed
    (keep : bool) (stack : string -> Value) (host : ExtensionHost) (extName : string)
    (load : string -> LoadOutcome) (path : string) (e : Value) :
  loadExtension host = Some load ->
  resolvedModule host extName (combinePaths (currentDirectoryOf host) "tsconfig.json")
  = Some path ->
  load path = Throws e ->
  truthy e = false ->
  (forall s,
      loadExtensionNamed stack host (currentDirectoryOf host) extName s
      = (Normal {| Res.name := extName; Res.result := Undefined; Res.error := e |},
         withLoadCall s path)) /\
  getCompilerExtensions keep stack {| extensions := NameList [extName] |} host
    createExtensionCache
  = (Normal ∅,
     {| Cache.diagnostics := []; Cache.extensions := Some ∅; Cache.loadCalls := [path] |}) /\
  fst (getExtensionLoadingDiagnostics keep stack {| extensions := NameList [extName] |} host
         createExtensionCache)
  = Normal [].
Proof.
  intros Hload Hres Hout He.
  assert (Hone : forall s,
             loadExtensionNamed stack host (currentDirectoryOf host) extName s
             = (Normal {| Res.name := extName; Res.result := Undefined; Res.error := e |},
                withLoadCall s path)).
  { intros s. erewrite loadExtensionNamed_threw by eassumption. rewrite He. reflexivity. }
  assert (Hget : getCompilerExtensions keep stack {| extensions := NameList [extName] |} host
                   createExtensionCache
                 = (Normal ∅,
                    {| Cache.diagnostics := []; Cache.extensions := Some ∅;
                       Cache.loadCalls := [path] |})).
  { unfold getCompilerExtensions, collectCompilerExtensions; simpl.
    fold (currentDirectoryOf host).
    erewrite bind_normal.
    2: { erewrite bind_normal by apply Hone. reflexivity. }
    simpl. rewrite He. simpl. reflexivity. }
  split; [exact Hone |]. split; [exact Hget |].
  unfold getExtensionLoadingDiagnostics. erewrite bind_normal by exact Hget. reflexivity.
Qed.

Lemma thrown_falsy_value_is_swallowed_witness :
  getCompilerExtensions false noStack {| extensions := NameList ["broken"] |}
    (hostLoading (Throws Null)) createExtensionCache
  = (Normal ∅,
     {| Cache.diagnostics := []; Cache.extensions := Some ∅;
        Cache.loadCalls := ["/project/node_modules/broken/index.js"] |}) /\
  fst (getExtensionLoadingDiagnostics false noStack {| extensions := NameList ["broken"] |}
         (hostLoading (Throws Null)) createExtensionCache)
  = Normal [].
Proof.
  apply (proj2 (thrown_falsy_value_is_swallowed false noStack (hostLoading (Throws Null))
                  "broken" (fun _ => Throws Null) "/project/node_modules/broken/index.js"
                  Null eq_refl eq_refl eq_refl eq_refl)).
Defined.

(** ** Classifying one export *)

Lemma namespace_has_no_kind_entry k :
  knownKind k = true -> getProperty ExtensionKind.namespace k = Undefined.
Proof.
  unfold knownKind. intros H. apply orb_true_iff in H as [H | H];
    apply String.eqb_eq in H; subst k; reflexivity.
Qed.

(** C4, as the code has it: the diagnostic for an export of a known kind
    that is not a function names the module, the export key, the type the
    export has and the expected type "function"; in the place of the
    declared kind it holds [undefined], because the kind is looked up by
    its value in a namespace whose keys are [SemanticLint] and
    [SyntacticLint].  The export is dropped and, with it, the aggregate. *)
Theorem nonconstructible_export_diagnostic
    (options : CompilerOptions) (res : Res.t) (aggregate : option (list Extension))
    (potentialExtension : Value) (key k : string) (s : Cache.state) :
  extensions options <> NoExtensions ->
  truthy potentialExtension = true ->
  getProperty potentialExtension "extension-kind" = Str k ->
  knownKind k = true ->
  typeof potentialExtension <> "function" ->
  classifyExport options res aggregate potentialExtension key s
  = (Normal None,
     withDiagnostic s
       (createCompilerDiagnostic
          Extension_0_exported_member_1_has_extension_kind_2_but_was_type_3_when_type_4_was_expected
          [Str (Res.name res); Str key; Undefined;
           Str (typeof potentialExtension); Str "function"])).
Proof.
  intros Hopt Hv Hk Hknown Hfun. unfold classifyExport.
  rewrite Hv, Hk. rewrite (namespace_has_no_kind_entry k Hknown).
  fold (knownKind k). rewrite Hknown.
  apply String.eqb_neq in Hfun. rewrite Hfun; simpl.
  destruct (extensions options); [reflexivity | reflexivity | contradiction].
Qed.

Lemma nonconstructible_export_diagnostic_witness :
  classifyExport {| extensions := NameList ["lints"] |}
    {| Res.name := "lints"; Res.result := moduleExporting [("rule", taggedObject "semantic-lint")];
       Res.error := Undefined |}
    (Some []) (taggedObject "semantic-lint") "rule" createExtensionCache
  = (Normal None,
     withDiagnostic createExtensionCache
       (createCompilerDiagnostic
          Extension_0_exported_member_1_has_extension_kind_2_but_was_type_3_when_type_4_was_expected
          [Str "lints"; Str "rule"; Undefined; Str "object"; Str "function"])).
Proof.
  apply (nonconstructible_export_diagnostic {| extensions := NameList ["lints"] |}
           {| Res.name := "lints";
              Res.result := moduleExporting [("rule", taggedObject "semantic-lint")];
              Res.error := Undefined |}
           (Some []) (taggedObject "semantic-lint") "rule" "semantic-lint"
           createExtensionCache);
    [discriminate | reflexivity | reflexivity | reflexivity | discriminate].
Defined.

(** C1, as the code has it: of two exports tagged "syntactic-lint", a
    class and a plain object, the plain one is diagnosed once, but its
    [return;] hands [undefined] to the next round as the aggregate.  With
    the plain object first, pushing the class's descriptor raises a
    [TypeError] that leaves [getCompilerExtensions]; nothing is memoized.
    With the class first, the module's descriptor list itself is
    [undefined], so the accepted descriptor is lost: the result has no
    group, or the error surfaces while grouping. *)
Theorem nonconstructible_export_drops_aggregate (keep : bool) (stack : string -> Value) :
  let options := {| extensions := NameList ["lints"] |} in
  let good := lintConstructor "syntactic-lint" in
  let bad := taggedObject "syntactic-lint" in
  let path := "/project/node_modules/lints/index.js" in
  let diagnosed key :=
    createCompilerDiagnostic
      Extension_0_exported_member_1_has_extension_kind_2_but_was_type_3_when_type_4_was_expected
      [Str "lints"; Str key; Undefined; Str "object"; Str "function"] in
  getCompilerExtensions keep stack options
    (hostLoading (Returns (moduleExporting [("a", bad); ("b", good)]))) createExtensionCache
  = (Abrupt (TypeError "push"),
     {| Cache.diagnostics := [diagnosed "a"]; Cache.extensions := None;
        Cache.loadCalls := [path] |}) /\
  prepareExtensionObject options
    {| Res.name := "lints"; Res.result := moduleExporting [("a", good); ("b", bad)];
       Res.error := Undefined |} createExtensionCache
  = (Normal None, withDiagnostic createExtensionCache (diagnosed "b")) /\
  getCompilerExtensions keep stack options
    (hostLoading (Returns (moduleExporting [("a", good); ("b", bad)]))) createExtensionCache
  = if keep
    then (Abrupt (TypeError "kind"),
          {| Cache.diagnostics := [diagnosed "b"]; Cache.extensions := None;
             Cache.loadCalls := [path] |})
    else (Normal ∅,
          {| Cache.diagnostics := [diagnosed "b"]; Cache.extensions := Some ∅;
             Cache.loadCalls := [path] |}).
Proof.
  destruct keep; repeat split; vm_compute; reflexivity.
Qed.

(** C2, as the code has it: an export that is [null] or [undefined]
    records no diagnostic and yields no descriptor, but its [return;]
    hands [undefined] to the next round as the aggregate.  A class
    exported after it raises a [TypeError] when its descriptor is pushed;
    a class exported before it is lost with the module's list. *)
Theorem null_export_drops_aggregate (keep : bool) (stack : string -> Value) :
  let options := {| extensions := NameList ["lints"] |} in
  let good := lintConstructor "semantic-lint" in
  let path := "/project/node_modules/lints/index.js" in
  (forall nothing, nothing = Null \/ nothing = Undefined ->
     getCompilerExtensions keep stack options
       (hostLoading (Returns (moduleExporting [("unused", nothing); ("default", good)])))
       createExtensionCache
     = (Abrupt (TypeError "push"),
        {| Cache.diagnostics := []; Cache.extensions := None; Cache.loadCalls := [path] |}) /\
     prepareExtensionObject options
       {| Res.name := "lints";
          Res.result := moduleExporting [("default", good); ("unused", nothing)];
          Res.error := Undefined |} createExtensionCache
     = (Normal None, createExtensionCache)).
Proof.
  intros options good path nothing [-> | ->]; split; vm_compute; reflexivity.
Qed.

Lemma null_export_drops_aggregate_witness :
  getCompilerExtensions false noStack {| extensions := NameList ["lints"] |}
    (hostLoading (Returns (moduleExporting
       [("unused", Null); ("default", lintConstructor "semantic-lint")])))
    createExtensionCache
  = (Abrupt (TypeError "push"),
     {| Cache.diagnostics := []; Cache.extensions := None;
        Cache.loadCalls := ["/project/node_modules/lints/index.js"] |}).
Proof.
  apply (null_export_drops_aggregate false noStack Null). left. reflexivity.
Defined.

(** ** The grouped descriptors *)

(** C7: when the extensions are configured as a mapping, every descriptor
    returned for a module has as [args] the value the mapping holds for
    that module's name; when they are configured as a sequence of names,
    every descriptor's [args] is [undefined].  So ["foo"] configured with
    [{x: 1}] gives the "foo" descriptor these very arguments, and the
    sequence [["foo"]] gives it [undefined]. *)
Theorem accepted_descriptor_args (keep : bool) (stack : string -> Value) :
  (forall options host groups s',
      getCompilerExtensions keep stack options host createExtensionCache
      = (Normal groups, s') ->
      forall k g d, groups !! k = Some g -> d ∈ g ->
        exists moduleName load path exports key v,
          moduleName ∈ extensionNamesOf (extensions options) /\
          loadExtension host = Some load /\
          resolvedModule host moduleName
            (combinePaths (currentDirectoryOf host) "tsconfig.json") = Some path /\
          load path = Returns exports /\
          (key, v) ∈ ownProperties exports /\
          name d = descriptorName moduleName key /\
          args d = match extensions options with
                   | NameMap entries => lookupProperty moduleName entries
                   | NameList _ | NoExtensions => Undefined
                   end) /\
  (let exports := moduleExporting [("default", lintConstructor "semantic-lint")] in
   let fooArgs := Object false "[object Object]" [("x", Number 1)] in
   let descriptor a :=
     {| name := "foo"; args := a; kind := "semantic-lint"; profiles := None;
        ctor := Some (lintConstructor "semantic-lint"); __extension := None |} in
   fst (getCompilerExtensions keep stack {| extensions := NameMap [("foo", fooArgs)] |}
          (hostLoading (Returns exports)) createExtensionCache)
   = Normal {["semantic-lint" := [descriptor fooArgs]]} /\
   fst (getCompilerExtensions keep stack {| extensions := NameList ["foo"] |}
          (hostLoading (Returns exports)) createExtensionCache)
   = Normal {["semantic-lint" := [descriptor Undefined]]}).
Proof.
  split.
  - intros options host groups s' Hget k g d Hg Hd.
    destruct (getCompilerExtensions_first _ _ _ _ createExtensionCache _ _ eq_refl Hget)
      as (_ & s1 & Hcollect & _).
    destruct (collectCompilerExtensions_inv _ _ _ _ _ _ _ Hcollect) as [Hall _].
    destruct (Hall k g d Hg Hd)
      as (Hk & moduleName & load & path & exports & key & v & Hm & Hl & Hr & Hp & Hkv & Hdesc).
    destruct Hdesc as (Hname & Hargs & _).
    exists moduleName, load, path, exports, key, v.
    do 6 (split; [assumption |]). exact Hargs.
  - destruct keep; split; vm_compute; reflexivity.
Qed.

Lemma accepted_descriptor_args_witness :
  let d := {| name := "foo"; args := Number 7; kind := "semantic-lint"; profiles := None;
              ctor := Some (lintConstructor "semantic-lint"); __extension := None |} in
  let options := {| extensions := NameMap [("foo", Number 7)] |} in
  let host :=
    hostLoading (Returns (moduleExporting [("default", lintConstructor "semantic-lint")])) in
  exists moduleName load path exports key v,
    moduleName ∈ extensionNamesOf (extensions options) /\
    loadExtension host = Some load /\
    resolvedModule host moduleName
      (combinePaths (currentDirectoryOf host) "tsconfig.json") = Some path /\
    load path = Returns exports /\
    (key, v) ∈ ownProperties exports /\
    name d = descriptorName moduleName key /\
    args d = lookupProperty moduleName [("foo", Number 7)].
Proof.
  intros d options host.
  apply (proj1 (accepted_descriptor_args false noStack) options host
           ({["semantic-lint" := [d]]} : gmap string (list Extension))
           {| Cache.diagnostics := [];
              Cache.extensions := Some ({["semantic-lint" := [d]]} : gmap string (list Extension));
              Cache.loadCalls := ["/project/node_modules/foo/index.js"] |})
    with (k := "semantic-lint") (g := [d]).
  - vm_compute. reflexivity.
  - vm_compute. reflexivity.
  - apply list_elem_of_here.
Defined.

(** ** Memoization *)

(** C3, as the code has it: once an accessor has returned, every later
    call of either accessor answers from the memoized state and changes
    nothing: [getCompilerExtensions] returns the same map,
    [getExtensionLoadingDiagnostics] the same list, and the host is not
    asked again.  In total [host.loadExtension] has then been called once
    for each configured name that resolved, in configured order, and not
    at all for a name that did not resolve. *)
Theorem discovery_runs_once
    (keep : bool) (stack : string -> Value) (options : CompilerOptions)
    (host : ExtensionHost) (first : Accessor) (answer : Answer) (s1 : Cache.state) :
  callAccessor keep stack options host first createExtensionCache = (Normal answer, s1) ->
  exists groups,
    answer = memoizedAnswer s1 groups first /\
    getCompilerExtensions keep stack options host s1 = (Normal groups, s1) /\
    getExtensionLoadingDiagnostics keep stack options host s1
    = (Normal (Cache.diagnostics s1), s1) /\
    (forall calls : list Accessor,
        mapArray calls (callAccessor keep stack options host) s1
        = (Normal (List.map (memoizedAnswer s1 groups) calls), s1)) /\
    Cache.loadCalls s1 = expectedLoadCalls options host.
Proof.
  intros Hfirst.
  destruct (callAccessor_first _ _ _ _ _ _ _ Hfirst) as (groups & Hext & Hans & Hget).
  exists groups. split; [exact Hans |].
  split; [by apply getCompilerExtensions_memoized |].
  split.
  { unfold getExtensionLoadingDiagnostics.
    erewrite bind_normal by (apply getCompilerExtensions_memoized; exact Hext).
    reflexivity. }
  split; [intros calls; by apply callAccessors_memoized |].
  destruct (getCompilerExtensions_first _ _ _ _ createExtensionCache _ _ eq_refl Hget)
    as (_ & s0 & Hcollect & Hcalls & _).
  destruct (collectCompilerExtensions_inv _ _ _ _ _ _ _ Hcollect) as [_ Hloads].
  rewrite Hcalls, Hloads. reflexivity.
Qed.

Lemma discovery_runs_once_witness :
  let options := {| extensions := NameList ["checks"; "missing"] |} in
  let host :=
    {| getCurrentDirectory := None;
       loadExtension :=
         Some (fun _ => Returns (moduleExporting [("default", lintConstructor "semantic-lint")]));
       resolvedModule := fun name _ =>
         if String.eqb name "checks" then Some "/lib/checks.js" else None |} in
  exists groups s1,
    getCompilerExtensions false noStack options host createExtensionCache
    = (Normal groups, s1) /\
    mapArray [GetExtensionLoadingDiagnostics; GetCompilerExtensions; GetCompilerExtensions]
      (callAccessor false noStack options host) s1
    = (Normal [Diagnostics (Cache.diagnostics s1); Extensions groups; Extensions groups], s1) /\
    Cache.loadCalls s1 = ["/lib/checks.js"].
Proof.
  intros options host.
  destruct (getCompilerExtensions false noStack options host createExtensionCache)
    as [[groups | e] s1] eqn:Hget; [| vm_compute in Hget; discriminate].
  exists groups, s1. split; [reflexivity |].
  destruct (discovery_runs_once false noStack options host GetCompilerExtensions
              (Extensions groups) s1) as (groups' & Hans & _ & _ & Hcalls & Hloads).
  { simpl. erewrite bind_normal by exact Hget. reflexivity. }
  inversion Hans; subst groups'.
  split; [apply (Hcalls [GetExtensionLoadingDiagnostics; GetCompilerExtensions;
                         GetCompilerExtensions]) |].
  rewrite Hloads. reflexivity.
Defined.

(** C3, as stated, fails: for a configured name that the host cannot
    resolve, [host.loadExtension] is not called once but never, however
    often the accessors are called. *)
Lemma unresolved_name_is_never_loaded :
  let options := {| extensions := NameList ["missing"] |} in
  let afterTwoCalls :=
    snd (getCompilerExtensions false noStack options hostWithoutModules
           (snd (getCompilerExtensions false noStack options hostWithoutModules
                   createExtensionCache))) in
  ~ (List.length (Cache.loadCalls afterTwoCalls)
     = List.length (extensionNamesOf (extensions options))).
Proof.
  vm_compute. discriminate.
Qed.

(** * Further properties *)

(** ** Classifying a whole module *)

Lemma classifyExport_classifiable options res exts v key s :
  extensions options <> NoExtensions ->
  classifiable v = true ->
  classifyExport options res (Some exts) v key s
  = (Normal (Some (exts ++ option_list
                     (descriptorOf (extensions options) (Res.name res) key v))%list), s).
Proof.
  intros Hopt Hv. unfold classifiable in Hv. apply andb_true_iff in Hv as [Ht Hshape].
  unfold classifyExport, descriptorOf. rewrite Ht; simpl.
  destruct (getProperty v "extension-kind") as [| | | | | k |];
    try (unfold ret; simpl; rewrite app_nil_r; reflexivity).
  fold (knownKind k). unfold descriptorName.
  destruct (extensions options) as [names | entries |] eqn:Hext; [| | contradiction];
    simpl; unfold bind, ret; simpl;
    destruct (knownKind k); [rewrite Hshape | | rewrite Hshape |]; simpl;
    destruct (String.eqb key "default"); reflexivity.
Qed.

Lemma reduceLoop_classifiable options res props :
  extensions options <> NoExtensions ->
  forallb classifiable (List.map snd props) = true ->
  forall exts s,
    reduceLoop (classifyExport options res) props (Some exts) s
    = (Normal (Some (exts ++ omap (fun kv => descriptorOf (extensions options)
                                              (Res.name res) (fst kv) (snd kv)) props)%list),
       s).
Proof.
  intros Hopt. induction props as [| [key v] props IH]; simpl; intros Hall exts s.
  - unfold ret. rewrite app_nil_r. reflexivity.
  - apply andb_true_iff in Hall as [Hv Hall].
    erewrite bind_normal by (apply classifyExport_classifiable; assumption).
    rewrite IH by assumption. rewrite <- app_assoc.
    destruct (descriptorOf (extensions options) (Res.name res) key v); reflexivity.
Qed.

Lemma falsy_has_no_properties v : truthy v = false -> ownProperties v = [].
Proof.
  destruct v as [| | b | n | | str | c t props]; simpl; try reflexivity; try discriminate.
  destruct str; [reflexivity | discriminate].
Qed.

(** X4: a module all of whose exports are classifiable (truthy, and a
    function when tagged with a known lint kind) contributes exactly the
    descriptors of its tagged exports, in enumeration order; classifying
    it records no diagnostic and raises nothing. *)
Theorem classifiable_module_descriptors (options : CompilerOptions) (res : Res.t)
    (s : Cache.state) :
  extensions options <> NoExtensions ->
  forallb classifiable (List.map snd (ownProperties (Res.result res))) = true ->
  prepareExtensionObject options res s
  = (Normal (Some (descriptorsOf (extensions options) (Res.name res) (Res.result res))), s).
Proof.
  intros Hopt Hall. unfold prepareExtensionObject, reduceProperties, descriptorsOf.
  destruct (truthy (Res.result res)) eqn:Ht.
  - rewrite reduceLoop_classifiable by assumption. reflexivity.
  - rewrite (falsy_has_no_properties _ Ht). reflexivity.
Qed.

Lemma classifiable_module_descriptors_witness :
  prepareExtensionObject {| extensions := NameMap [("lints", Number 3)] |}
    {| Res.name := "lints";
       Res.result := moduleExporting
         [("__esModule", Boolean true);
          ("default", lintConstructor "semantic-lint");
          ("helper", taggedObject "formatter")];
       Res.error := Undefined |}
    createExtensionCache
  = (Normal (Some
       [{| name := "lints"; args := Number 3; kind := "semantic-lint"; profiles := None;
           ctor := Some (lintConstructor "semantic-lint"); __extension := None |};
        {| name := "lints[helper]"; args := Number 3; kind := "formatter"; profiles := None;
           ctor := None; __extension := Some (taggedObject "formatter") |}]),
     createExtensionCache).
Proof.
  apply (classifiable_module_descriptors {| extensions := NameMap [("lints", Number 3)] |}
           {| Res.name := "lints";
              Res.result := moduleExporting
                [("__esModule", Boolean true);
                 ("default", lintConstructor "semantic-lint");
                 ("helper", taggedObject "formatter")];
              Res.error := Undefined |}
           createExtensionCache);
    [discriminate | reflexivity].
Defined.

Lemma indexProperties_classifiable extOptions moduleName str :
  forall i,
    forallb classifiable (List.map snd (indexProperties i str)) = true /\
    omap (fun kv => descriptorOf extOptions moduleName (fst kv) (snd kv))
         (indexProperties i str) = [].
Proof.
  induction str as [| c str IH]; intros i; simpl; [split; reflexivity |].
  destruct (IH (S i)) as [H1 H2]. split; assumption.
Qed.

Lemma primitive_has_no_descriptors extOptions moduleName v :
  (forall c t props, v <> Object c t props) ->
  forallb classifiable (List.map snd (ownProperties v)) = true /\
  descriptorsOf extOptions moduleName v = [].
Proof.
  intros Hprim. unfold descriptorsOf.
  destruct v as [| | b | n | | str | c t props]; simpl; try (split; reflexivity).
  - apply indexProperties_classifiable.
  - exfalso. eapply Hprim. reflexivity.
Qed.

(** X5: a module whose load returns a primitive (a string, a number, a
    boolean, [null] or [undefined]) instead of an export object
    contributes the empty descriptor list; classifying it records no
    diagnostic and raises nothing.  For a string, every character is
    visited as an export and passed over. *)
Theorem primitive_module_contributes_nothing (options : CompilerOptions) (res : Res.t)
    (s : Cache.state) :
  (forall c t props, Res.result res <> Object c t props) ->
  prepareExtensionObject options res s = (Normal (Some []), s).
Proof.
  intros Hprim.
  destruct (primitive_has_no_descriptors (extensions options) (Res.name res) _ Hprim)
    as [Hall Hnone].
  unfold prepareExtensionObject, reduceProperties.
  destruct (truthy (Res.result res)) eqn:Ht; [| reflexivity].
  destruct (Res.result res) as [| | b | n | | str | c t props]; simpl in *;
    try reflexivity.
  - clear Hnone Ht Hprim. revert Hall. generalize 0%nat.
    induction str as [| c str IH]; intros i Hall; simpl; [reflexivity |].
    simpl in Hall. erewrite bind_normal; [apply IH; exact Hall | reflexivity].
  - exfalso. eapply Hprim. reflexivity.
Qed.

Lemma primitive_module_contributes_nothing_witness :
  prepareExtensionObject {| extensions := NameList ["text"] |}
    {| Res.name := "text"; Res.result := Str "lint"; Res.error := Undefined |}
    createExtensionCache
  = (Normal (Some []), createExtensionCache).
Proof.
  apply (primitive_module_contributes_nothing {| extensions := NameList ["text"] |}
           {| Res.name := "text"; Res.result := Str "lint"; Res.error := Undefined |}
           createExtensionCache).
  intros c t props. discriminate.
Defined.

Lemma reduceLoop_from_undefined options res props :
  forall s c s',
    reduceLoop (classifyExport options res) props None s = (c, s') ->
    forall out, c <> Normal (Some out).
Proof.
  induction props as [| [key v] props IH]; simpl; intros s c s' H out Hc.
  - inversion H; subst. discriminate.
  - apply bind_inv in H as [(e & _ & ->) | (next & s1 & Hstep & H)]; [discriminate |].
    destruct next as [exts |].
    + destruct (classifyExport_inv _ _ _ _ _ _ _ _ Hstep) as [_ Hinv].
      destruct (Hinv exts eq_refl) as [Hagg | (exts0 & d & Hagg & _)]; discriminate.
    + exact (IH _ _ _ H out Hc).
Qed.

Lemma reduceLoop_after_falsy options res (before after : list (string * Value)) key v :
  truthy v = false ->
  forall aggregate s c s',
    reduceLoop (classifyExport options res) (before ++ (key, v) :: after) aggregate s
    = (c, s') ->
    forall out, c <> Normal (Some out).
Proof.
  intros Hv. induction before as [| [key0 v0] before IH]; simpl; intros aggregate s c s' H.
  - apply bind_inv in H as [(e & _ & ->) | (next & s1 & Hstep & H)]; [discriminate |].
    unfold classifyExport in Hstep. rewrite Hv in Hstep. inversion Hstep; subst.
    eapply reduceLoop_from_undefined; eassumption.
  - apply bind_inv in H as [(e & _ & ->) | (next & s1 & _ & H)]; [discriminate |].
    eapply IH; eassumption.
Qed.

(** X11: a module object with an export that is falsy ([null],
    [undefined], [false], [0], [NaN] or the empty string) never
    contributes a descriptor list, whatever its other exports are:
    classifying it either raises or yields [undefined]. *)
Theorem falsy_export_loses_the_module (options : CompilerOptions) (res : Res.t)
    (key : string) (v : Value) (s : Cache.state) :
  (key, v) ∈ ownProperties (Res.result res) ->
  truthy v = false ->
  (exists e s', prepareExtensionObject options res s = (Abrupt e, s')) \/
  (exists s', prepareExtensionObject options res s = (Normal None, s')).
Proof.
  intros Hin Hv.
  destruct (prepareExtensionObject options res s) as [[[out |] | e] s'] eqn:Hrun; eauto.
  exfalso. unfold prepareExtensionObject, reduceProperties in Hrun.
  destruct (truthy (Res.result res)) eqn:Ht.
  - apply list_elem_of_split in Hin as (before & after & Hsplit).
    rewrite Hsplit in Hrun.
    exact (reduceLoop_after_falsy _ _ _ _ _ _ Hv _ _ _ _ Hrun out eq_refl).
  - rewrite (falsy_has_no_properties _ Ht) in Hin. apply elem_of_nil in Hin. exact Hin.
Qed.

Lemma falsy_export_loses_the_module_witness :
  let res := {| Res.name := "lints";
                Res.result := moduleExporting
                  [("default", lintConstructor "semantic-lint"); ("enabled", Boolean false)];
                Res.error := Undefined |} in
  (exists e s', prepareExtensionObject {| extensions := NameList ["lints"] |} res
                  createExtensionCache = (Abrupt e, s')) \/
  (exists s', prepareExtensionObject {| extensions := NameList ["lints"] |} res
                createExtensionCache = (Normal None, s')).
Proof.
  intros res.
  apply (falsy_export_loses_the_module {| extensions := NameList ["lints"] |} res
           "enabled" (Boolean false) createExtensionCache).
  - apply list_elem_of_further, list_elem_of_here.
  - reflexivity.
Defined.

(** ** Names that are not loaded *)

(** Loading a name that does not resolve: no load, one diagnostic, and an
    error that the filter of the successful loads rejects. *)
Lemma loadExtensionNamed_unresolved stack host cwd name load s :
  loadExtension host = Some load ->
  resolvedModule host name (combinePaths cwd "tsconfig.json") = None ->
  loadExtensionNamed stack host cwd name s
  = (Normal {| Res.name := name; Res.result := Undefined;
               Res.error := newError stack
                              ("Host could not locate extension '" +:+ name +:+ "'.") |},
     withDiagnostic s
       (loadDiagnostic
          (newError stack ("Host could not locate extension '" +:+ name +:+ "'.")))).
Proof.
  intros Hload Hres. unfold loadExtensionNamed. rewrite Hload, Hres. reflexivity.
Qed.

Lemma load_phase_without_loader stack host cwd names :
  loadExtension host = None ->
  forall s,
    mapArray names (loadExtensionNamed stack host cwd) s
    = (Normal (List.map (fun name =>
                 {| Res.name := name; Res.result := Undefined;
                    Res.error := newError stack "Extension loading not implemented in host!" |})
               names),
       {| Cache.diagnostics :=
            Cache.diagnostics s ++
            List.map (fun _ => loadDiagnostic
                        (newError stack "Extension loading not implemented in host!")) names;
          Cache.extensions := Cache.extensions s;
          Cache.loadCalls := Cache.loadCalls s |}).
Proof.
  intros Hload. induction names as [| name names IH]; intros s; simpl.
  - unfold ret. rewrite app_nil_r. destruct s; reflexivity.
  - erewrite bind_normal.
    2: { unfold loadExtensionNamed. rewrite Hload. reflexivity. }
    erewrite bind_normal by apply IH.
    unfold ret; simpl. rewrite <- app_assoc. reflexivity.
Qed.

(** X2: on a host without [loadExtension], discovery resolves and loads
    nothing: it returns the empty map, memoizes it, and records for every
    configured name, in order, the same diagnostic, made from the [Error]
    "Extension loading not implemented in host!". *)
Theorem host_without_loader (keep : bool) (stack : string -> Value)
    (options : CompilerOptions) (host : ExtensionHost) :
  loadExtension host = None ->
  getCompilerExtensions keep stack options host createExtensionCache
  = (Normal ∅,
     {| Cache.diagnostics :=
          List.map (fun _ => loadDiagnostic
                      (newError stack "Extension loading not implemented in host!"))
                   (extensionNamesOf (extensions options));
        Cache.extensions := Some ∅;
        Cache.loadCalls := [] |}).
Proof.
  intros Hload. unfold getCompilerExtensions, collectCompilerExtensions; simpl.
  erewrite bind_normal by (apply load_phase_without_loader; exact Hload).
  simpl.
  assert (Hfilter : forall names,
             List.filter (fun res => negb (truthy (Res.error res)))
               (List.map (fun name =>
                  {| Res.name := name; Res.result := Undefined;
                     Res.error := newError stack "Extension loading not implemented in host!" |})
                  names) = []).
  { induction names as [| n names IH]; simpl; [reflexivity | exact IH]. }
  rewrite Hfilter. reflexivity.
Qed.

Lemma host_without_loader_witness :
  fst (getCompilerExtensions false noStack {| extensions := NameList ["a"; "b"] |}
         {| getCurrentDirectory := None; loadExtension := None;
            resolvedModule := fun _ _ => Some "/lib/index.js" |}
         createExtensionCache)
  = Normal ∅.
Proof.
  rewrite (host_without_loader false noStack {| extensions := NameList ["a"; "b"] |}
             {| getCurrentDirectory := None; loadExtension := None;
                resolvedModule := fun _ _ => Some "/lib/index.js" |} eq_refl).
  reflexivity.
Defined.

(** X3: with no extension configured (the option unset, an empty array or
    an empty mapping) discovery returns the empty map, memoizes it, records
    no diagnostic and never calls the host's loader, whatever the host. *)
Theorem nothing_configured (keep : bool) (stack : string -> Value)
    (options : CompilerOptions) (host : ExtensionHost) :
  extensionNamesOf (extensions options) = [] ->
  getCompilerExtensions keep stack options host createExtensionCache
  = (Normal ∅,
     {| Cache.diagnostics := []; Cache.extensions := Some ∅; Cache.loadCalls := [] |}).
Proof.
  intros Hnames. unfold getCompilerExtensions, collectCompilerExtensions; simpl.
  rewrite Hnames. reflexivity.
Qed.

Lemma nothing_configured_witness :
  getCompilerExtensions true noStack {| extensions := NoExtensions |}
    (hostLoading (Throws Null)) createExtensionCache
  = (Normal ∅,
     {| Cache.diagnostics := []; Cache.extensions := Some ∅; Cache.loadCalls := [] |}).
Proof.
  apply (nothing_configured true noStack {| extensions := NoExtensions |}
           (hostLoading (Throws Null)) eq_refl).
Defined.

(** ** A configuration without faults *)

Lemma groupBy_fold_lookup {T} (classifier : T -> string) (array : list T) k :
  forall acc : gmap string (list T),
    fold_left (groupByAdd classifier) array acc !! k
    = match filter (fun x => classifier x = k) array with
      | [] => acc !! k
      | x :: g => Some (match acc !! k with Some g0 => g0 | None => [] end ++ x :: g)%list
      end.
Proof.
  induction array as [| x array IH]; intros acc; simpl; [reflexivity |].
  rewrite IH, filter_cons. unfold groupByAdd at 1 2.
  destruct (decide (classifier x = k)) as [Heq | Hne].
  - subst k. rewrite lookup_insert_eq.
    destruct (filter (fun x0 => classifier x0 = classifier x) array) as [| y g].
    + reflexivity.
    + rewrite <- app_assoc. reflexivity.
  - rewrite lookup_insert_ne by assumption. reflexivity.
Qed.

Lemma groupBy_lookup {T} (classifier : T -> string) (array : list T) k :
  match groupBy array classifier with Some groups => groups | None => ∅ end !! k
  = match filter (fun x => classifier x = k) array with
    | [] => None
    | x :: g => Some (x :: g)
    end.
Proof.
  unfold groupBy. destruct array as [| x array].
  - rewrite lookup_empty. reflexivity.
  - rewrite groupBy_fold_lookup, lookup_empty. reflexivity.
Qed.

Lemma flatten_all_defined {A} keep (f : A -> list Extension) (l : list A) :
  flatten keep (List.map (fun a => Some (f a)) l) = Normal (concat (List.map f l)).
Proof.
  induction l as [| a l IH]; simpl; [reflexivity |]. rewrite IH. reflexivity.
Qed.

Lemma loadedExports_loaded host name load path v :
  loadExtension host = Some load ->
  resolvedModule host name (combinePaths (currentDirectoryOf host) "tsconfig.json")
  = Some path ->
  load path = Returns v ->
  loadedExports host name = v.
Proof. intros Hl Hr Hp. unfold loadedExports. rewrite Hl, Hr, Hp. reflexivity. Qed.

Lemma load_phase_all_loaded stack host load names :
  loadExtension host = Some load ->
  (forall name, name ∈ names ->
     exists path exports,
       resolvedModule host name (combinePaths (currentDirectoryOf host) "tsconfig.json")
       = Some path /\
       load path = Returns exports /\
       forallb classifiable (List.map snd (ownProperties exports)) = true) ->
  forall s, exists s',
    mapArray names (loadExtensionNamed stack host (currentDirectoryOf host)) s
    = (Normal (List.map (fun name =>
                 {| Res.name := name; Res.result := loadedExports host name;
                    Res.error := Undefined |}) names), s') /\
    Cache.diagnostics s' = Cache.diagnostics s /\
    Cache.extensions s' = Cache.extensions s.
Proof.
  intros Hload. induction names as [| name names IH]; intros Hall s; simpl.
  - exists s. repeat split; reflexivity.
  - destruct (Hall name (list_elem_of_here _ _)) as (path & exports & Hres & Hout & _).
    destruct (IH (fun n Hn => Hall n (list_elem_of_further _ _ _ Hn)) (withLoadCall s path))
      as (s' & Hrest & Hd & He).
    exists s'. split; [| split; assumption].
    erewrite bind_normal by (eapply loadExtensionNamed_loaded; eassumption).
    erewrite bind_normal by exact Hrest.
    rewrite (loadedExports_loaded _ _ _ _ _ Hload Hres Hout). reflexivity.
Qed.

Lemma prepare_phase_classifiable options host load names :
  extensions options <> NoExtensions ->
  loadExtension host = Some load ->
  (forall name, name ∈ names ->
     exists path exports,
       resolvedModule host name (combinePaths (currentDirectoryOf host) "tsconfig.json")
       = Some path /\
       load path = Returns exports /\
       forallb classifiable (List.map snd (ownProperties exports)) = true) ->
  forall s,
    mapArray
      (List.filter (fun res => negb (truthy (Res.error res)))
         (List.map (fun name =>
            {| Res.name := name; Res.result := loadedExports host name;
               Res.error := Undefined |}) names))
      (prepareExtensionObject options) s
    = (Normal (List.map (fun name =>
                 Some (descriptorsOf (extensions options) name (loadedExports host name)))
               names), s).
Proof.
  intros Hopt Hload. induction names as [| name names IH]; intros Hall s; simpl;
    [reflexivity |].
  destruct (Hall name (list_elem_of_here _ _)) as (path & exports & Hres & Hout & Hok).
  erewrite bind_normal.
  2: { apply classifiable_module_descriptors; [exact Hopt |]. simpl.
       rewrite (loadedExports_loaded _ _ _ _ _ Hload Hres Hout). exact Hok. }
  erewrite bind_normal by (apply IH; intros n Hn; apply Hall, list_elem_of_further, Hn).
  reflexivity.
Qed.

(** X12: when the host loads, and every configured name resolves to a
    module whose exports are all classifiable, discovery returns normally
    and records no diagnostic; the group of each kind is the sequence of
    all descriptors of that kind, modules in configured order and exports
    in enumeration order inside a module; a kind without descriptor has no
    group. *)
Theorem faultless_configuration (keep : bool) (stack : string -> Value)
    (options : CompilerOptions) (host : ExtensionHost) (load : string -> LoadOutcome) :
  loadExtension host = Some load ->
  (forall name, name ∈ extensionNamesOf (extensions options) ->
     exists path exports,
       resolvedModule host name (combinePaths (currentDirectoryOf host) "tsconfig.json")
       = Some path /\
       load path = Returns exports /\
       forallb classifiable (List.map snd (ownProperties exports)) = true) ->
  exists groups s',
    getCompilerExtensions keep stack options host createExtensionCache
    = (Normal groups, s') /\
    Cache.diagnostics s' = [] /\
    forall k,
      groups !! k
      = match filter (fun d => kind d = k)
                (concat (List.map
                   (fun name => descriptorsOf (extensions options) name
                                  (loadedExports host name))
                   (extensionNamesOf (extensions options)))) with
        | [] => None
        | d :: g => Some (d :: g)
        end.
Proof.
  intros Hload Hall.
  destruct (extensionNamesOf (extensions options)) as [| name0 names0] eqn:Hnames.
  - eexists _, _. split.
    { apply nothing_configured. exact Hnames. }
    split; [reflexivity |]. intros k. simpl. rewrite lookup_empty. reflexivity.
  - assert (Hopt : extensions options <> NoExtensions).
    { intros Hno. rewrite Hno in Hnames. discriminate. }
    rewrite <- Hnames in *. clear Hnames name0 names0.
    destruct (load_phase_all_loaded stack host load _ Hload Hall createExtensionCache)
      as (s1 & Hphase & Hdiags & _).
    unfold getCompilerExtensions, collectCompilerExtensions; simpl.
    fold (currentDirectoryOf host).
    erewrite bind_normal by exact Hphase.
    erewrite bind_normal by (eapply prepare_phase_classifiable; eassumption).
    rewrite flatten_all_defined. simpl.
    eexists _, _. split; [reflexivity |]. split; [exact Hdiags |].
    intros k. apply groupBy_lookup.
Qed.

Lemma faultless_configuration_witness :
  let options := {| extensions := NameList ["style"; "types"] |} in
  let host :=
    {| getCurrentDirectory := Some "/project";
       loadExtension := Some (fun path =>
         if String.eqb path "/lib/style.js"
         then Returns (moduleExporting [("quotes", lintConstructor "syntactic-lint");
                                        ("default", lintConstructor "syntactic-lint")])
         else Returns (moduleExporting [("default", lintConstructor "semantic-lint")]));
       resolvedModule := fun name _ => Some ("/lib/" +:+ name +:+ ".js") |} in
  exists groups s',
    getCompilerExtensions false noStack options host createExtensionCache
    = (Normal groups, s') /\
    Cache.diagnostics s' = [] /\
    List.map name <$> groups !! "syntactic-lint" = Some ["style[quotes]"; "style"] /\
    groups !! "formatter" = None.
Proof.
  intros options host.
  destruct (faultless_configuration false noStack options host
              (fun path =>
                 if String.eqb path "/lib/style.js"
                 then Returns (moduleExporting [("quotes", lintConstructor "syntactic-lint");
                                                ("default", lintConstructor "syntactic-lint")])
                 else Returns (moduleExporting [("default", lintConstructor "semantic-lint")]))
              eq_refl)
    as (groups & s' & Hget & Hdiags & Hgroups).
  - intros name Hin.
    apply elem_of_cons in Hin as [-> | Hin];
      [| apply list_elem_of_singleton in Hin as ->];
      eexists _, _; (split; [reflexivity |]); split; reflexivity.
  - exists groups, s'. split; [exact Hget |]. split; [exact Hdiags |].
    rewrite !Hgroups. split; reflexivity.
Defined.

(** ** What the cache state goes through *)

Lemma grows_refl s : grows s s.
Proof. split; reflexivity. Qed.

Lemma grows_trans s1 s2 s3 : grows s1 s2 -> grows s2 s3 -> grows s1 s3.
Proof. intros [H1 H2] [H3 H4]. split; etrans; eassumption. Qed.

Lemma grows_withDiagnostic s d : grows s (withDiagnostic s d).
Proof. split; simpl; [apply prefix_app_r | ]; reflexivity. Qed.

Lemma grows_withLoadCall s path : grows s (withLoadCall s path).
Proof. split; simpl; [| apply prefix_app_r]; reflexivity. Qed.

Lemma mapArray_grows {T U} (f : T -> M U) (l : list T) :
  (forall x s c s', f x s = (c, s') -> grows s s') ->
  forall s c s', mapArray l f s = (c, s') -> grows s s'.
Proof.
  intros Hf. induction l as [| x l IH]; simpl; intros s c s' H.
  - inversion H. apply grows_refl.
  - apply bind_inv in H as [(e & H & _) | (u & s1 & H1 & H)]; [eauto |].
    apply bind_inv in H as [(e & H & _) | (us & s2 & H2 & H)].
    + eapply grows_trans; eauto.
    + inversion H; subst. eapply grows_trans; eauto.
Qed.

Lemma reduceLoop_grows {U} (callback : U -> Value -> string -> M U) props :
  (forall a v key s c s', callback a v key s = (c, s') -> grows s s') ->
  forall result s c s', reduceLoop callback props result s = (c, s') -> grows s s'.
Proof.
  intros Hf. induction props as [| [key v] props IH]; simpl; intros result s c s' H.
  - inversion H. apply grows_refl.
  - apply bind_inv in H as [(e & H & _) | (u & s1 & H1 & H)]; [eauto |].
    eapply grows_trans; eauto.
Qed.

Lemma classifyExport_grows options res aggregate v key s c s' :
  classifyExport options res aggregate v key s = (c, s') -> grows s s'.
Proof.
  unfold classifyExport.
  destruct (truthy v); simpl; [| intros [= <- <-]; apply grows_refl].
  destruct (getProperty v "extension-kind") as [| | | | | k |];
    try (intros [= <- <-]; apply grows_refl).
  intros H. apply bind_inv in H as [(e & H & ->) | (a & s1 & Ha & H)].
  { apply argsFor_inv in H as [-> _]. apply grows_refl. }
  apply argsFor_inv in Ha as [-> _].
  destruct (String.eqb k ExtensionKind.SemanticLint
            || String.eqb k ExtensionKind.SyntacticLint).
  - destruct (String.eqb (typeof v) "function"); simpl in H.
    + apply pushExtension_inv in H as [-> _]. apply grows_refl.
    + apply bind_inv in H as [(e & H & ->) | (u & s2 & Hp & H)].
      * inversion H.
      * inversion Hp; subst. inversion H; subst. apply (grows_withDiagnostic s).
  - apply pushExtension_inv in H as [-> _]. apply grows_refl.
Qed.

Lemma prepareExtensionObject_grows options res s c s' :
  prepareExtensionObject options res s = (c, s') -> grows s s'.
Proof.
  unfold prepareExtensionObject, reduceProperties.
  destruct (truthy (Res.result res)).
  - apply reduceLoop_grows. intros a v key s0 c0 s0'. apply classifyExport_grows.
  - intros [= <- <-]. apply grows_refl.
Qed.

Lemma loadExtensionNamed_grows stack host cwd name s c s' :
  loadExtensionNamed stack host cwd name s = (c, s') -> grows s s'.
Proof.
  unfold loadExtensionNamed.
  destruct (loadExtension host) as [load |].
  - destruct (resolvedModule host name (combinePaths cwd "tsconfig.json")) as [path |].
    + unfold bind at 1. unfold bind at 1. unfold callLoadExtension at 1.
      destruct (load path) as [v | e]; simpl.
      * intros [= <- <-]. apply (grows_withLoadCall s).
      * destruct (truthy e); unfold bind, ret, pushDiagnostic; simpl; intros [= <- <-].
        -- eapply grows_trans; [apply (grows_withLoadCall s path) |].
           apply (grows_withDiagnostic (withLoadCall s path)).
        -- apply (grows_withLoadCall s).
    + unfold bind, ret, pushDiagnostic; simpl. intros [= <- <-].
      apply (grows_withDiagnostic s).
  - unfold bind, ret, pushDiagnostic; simpl. intros [= <- <-].
    apply (grows_withDiagnostic s).
Qed.

Lemma collectCompilerExtensions_grows keep stack options host s c s' :
  collectCompilerExtensions keep stack options host s = (c, s') -> grows s s'.
Proof.
  unfold collectCompilerExtensions. intros H.
  apply bind_inv in H as [(e & H & _) | (results & s1 & Hload & H)].
  { eapply mapArray_grows; [| exact H].
    intros x s0 c0 s0'. apply loadExtensionNamed_grows. }
  eapply grows_trans.
  { eapply mapArray_grows; [| exact Hload].
    intros x s0 c0 s0'. apply loadExtensionNamed_grows. }
  apply bind_inv in H as [(e & H & _) | (prepared & s2 & Hprep & H)].
  { eapply mapArray_grows; [| exact H].
    intros x s0 c0 s0'. apply prepareExtensionObject_grows. }
  eapply grows_trans.
  { eapply mapArray_grows; [| exact Hprep].
    intros x s0 c0 s0'. apply prepareExtensionObject_grows. }
  destruct (flatten keep prepared); inversion H; subst; apply grows_refl.
Qed.

Lemma getCompilerExtensions_grows keep stack options host s c s' :
  getCompilerExtensions keep stack options host s = (c, s') ->
  grows s s' /\
  (forall groups, Cache.extensions s = Some groups -> s' = s /\ c = Normal groups).
Proof.
  unfold getCompilerExtensions.
  destruct (Cache.extensions s) as [groups |] eqn:Hext.
  - intros [= <- <-]. split; [apply grows_refl |]. intros g [= <-]. auto.
  - destruct (collectCompilerExtensions keep stack options host s) as [[g | e] s1] eqn:Hc;
      intros [= <- <-]; (split; [| intros g0 [=]]);
      apply collectCompilerExtensions_grows in Hc; exact Hc.
Qed.

(** X6: whatever an accessor call does and however it ends, the
    diagnostics and the loads recorded before it are still there, in front
    and in the same order; and once a map is memoized, a call changes
    nothing at all. *)
Theorem accessors_only_add (keep : bool) (stack : string -> Value)
    (options : CompilerOptions) (host : ExtensionHost) (a : Accessor)
    (s : Cache.state) (c : Completion Answer) (s' : Cache.state) :
  callAccessor keep stack options host a s = (c, s') ->
  Cache.diagnostics s `prefix_of` Cache.diagnostics s' /\
  Cache.loadCalls s `prefix_of` Cache.loadCalls s' /\
  (forall groups, Cache.extensions s = Some groups -> s' = s).
Proof.
  intros H.
  assert (Hget : exists c0, getCompilerExtensions keep stack options host s = (c0, s')).
  { destruct a; simpl in H; unfold getExtensionLoadingDiagnostics in H.
    - apply bind_inv in H as [(e & H & _) | (g & s1 & Hg & H)]; [eauto |].
      inversion H; subst. eauto.
    - apply bind_inv in H as [(e & H & _) | (g & s1 & Hg & H)].
      + apply bind_inv in H as [(e0 & H & _) | (g0 & s2 & Hg0 & H)]; [eauto |].
        inversion H.
      + inversion H; subst.
        apply bind_inv in Hg as [(e0 & _ & Habs) | (g0 & s2 & Hg0 & Hg)]; [discriminate |].
        inversion Hg; subst. eauto. }
  destruct Hget as [c0 Hget].
  destruct (getCompilerExtensions_grows _ _ _ _ _ _ _ Hget) as [[Hd Hl] Hmemo].
  split; [exact Hd |]. split; [exact Hl |].
  intros groups Hext. apply (Hmemo groups Hext).
Qed.

Lemma accessors_only_add_witness :
  let s := {| Cache.diagnostics := [loadDiagnostic (Str "earlier")];
              Cache.extensions := Some ∅;
              Cache.loadCalls := ["/lib/a.js"] |} in
  snd (callAccessor false noStack {| extensions := NameList ["b"] |}
         (hostLoading (Throws (Str "late"))) GetExtensionLoadingDiagnostics s)
  = s.
Proof.
  intros s.
  apply (proj2 (proj2 (accessors_only_add false noStack {| extensions := NameList ["b"] |}
                         (hostLoading (Throws (Str "late")))
                         GetExtensionLoadingDiagnostics s _ _
                         (surjective_pairing _))) ∅).
  reflexivity.
Defined.

Lemma collectCompilerExtensions_loads keep stack options host s c s' :
  collectCompilerExtensions keep stack options host s = (c, s') ->
  Cache.loadCalls s' = (Cache.loadCalls s ++ expectedLoadCalls options host)%list /\
  Cache.extensions s' = Cache.extensions s.
Proof.
  unfold collectCompilerExtensions. intros H.
  set (cwd := match getCurrentDirectory host with Some d => d | None => "" end) in *.
  destruct (load_phase stack host cwd (extensionNamesOf (extensions options)) s)
    as (results & s1 & Hload & Hext & Hcalls).
  erewrite bind_normal in H by exact Hload.
  assert (Hsame : sameLoads s1 s').
  { apply bind_inv in H as [(e & H & _) | (prepared & s2 & Hprep & H)].
    - eapply mapArray_sameLoads; [| exact H]. apply prepareExtensionObject_sameLoads.
    - eapply sameLoads_trans.
      + eapply mapArray_sameLoads; [| exact Hprep]. apply prepareExtensionObject_sameLoads.
      + destruct (flatten keep prepared); inversion H; subst; apply sameLoads_refl. }
  destruct Hsame as [Hl He]. split; [| congruence].
  rewrite Hl, Hcalls. reflexivity.
Qed.

(** X7: a discovery that raises memoizes nothing, although by then the
    host has been asked for every configured name that resolved; so the
    next call of [getCompilerExtensions] runs discovery again and asks the
    host for each of these names a second time. *)
Theorem failed_discovery_is_repeated (keep : bool) (stack : string -> Value)
    (options : CompilerOptions) (host : ExtensionHost)
    (s : Cache.state) (e : Exception) (s1 : Cache.state) :
  getCompilerExtensions keep stack options host s = (Abrupt e, s1) ->
  Cache.extensions s1 = None /\
  Cache.loadCalls s1 = (Cache.loadCalls s ++ expectedLoadCalls options host)%list /\
  forall c2 s2,
    getCompilerExtensions keep stack options host s1 = (c2, s2) ->
    Cache.loadCalls s2
    = (Cache.loadCalls s ++ expectedLoadCalls options host
         ++ expectedLoadCalls options host)%list.
Proof.
  intros H. unfold getCompilerExtensions in H.
  destruct (Cache.extensions s) as [g |] eqn:Hext; [discriminate |].
  destruct (collectCompilerExtensions keep stack options host s) as [[g | e0] s0] eqn:Hc;
    [discriminate |].
  inversion H; subst e0 s0; clear H.
  destruct (collectCompilerExtensions_loads _ _ _ _ _ _ _ Hc) as [Hloads Hsame].
  assert (Hnone : Cache.extensions s1 = None) by congruence.
  split; [exact Hnone |]. split; [exact Hloads |].
  intros c2 s2 H2. unfold getCompilerExtensions in H2. rewrite Hnone in H2.
  destruct (collectCompilerExtensions keep stack options host s1) as [[g | e2] s3] eqn:Hc2;
    inversion H2; subst; simpl;
    destruct (collectCompilerExtensions_loads _ _ _ _ _ _ _ Hc2) as [Hloads2 _];
    rewrite Hloads2, Hloads, <- app_assoc; reflexivity.
Qed.

Lemma failed_discovery_is_repeated_witness :
  let options := {| extensions := NameList ["lints"] |} in
  let host := hostLoading (Returns (moduleExporting
                [("unused", Null); ("default", lintConstructor "semantic-lint")])) in
  Cache.loadCalls
    (snd (getCompilerExtensions false noStack options host
            {| Cache.diagnostics := []; Cache.extensions := None;
               Cache.loadCalls := ["/project/node_modules/lints/index.js"] |}))
  = ["/project/node_modules/lints/index.js"; "/project/node_modules/lints/index.js"].
Proof.
  intros options host.
  apply (proj2 (proj2 (failed_discovery_is_repeated false noStack options host
                         createExtensionCache (TypeError "push")
                         {| Cache.diagnostics := []; Cache.extensions := None;
                            Cache.loadCalls := ["/project/node_modules/lints/index.js"] |}
                         eq_refl)) _ _ (surjective_pairing _)).
Defined.

(** X8: every descriptor [getCompilerExtensions] returns is made from an
    export [v] of a module loaded for a configured name: it sits in the
    group of the kind that export is tagged with and has no [profiles]
    yet; in a group of a known lint kind its [ctor] is that export, which
    is a function, and it has no [__extension]; in any other group it has
    no [ctor] and its [__extension] is that export, of whatever type. *)
Theorem accepted_descriptor_shape (keep : bool) (stack : string -> Value)
    (options : CompilerOptions) (host : ExtensionHost)
    (groups : gmap string (list Extension)) (s' : Cache.state)
    (k : string) (g : list Extension) (d : Extension) :
  getCompilerExtensions keep stack options host createExtensionCache = (Normal groups, s') ->
  groups !! k = Some g ->
  d ∈ g ->
  exists moduleName load path exports key v,
    moduleName ∈ extensionNamesOf (extensions options) /\
    loadExtension host = Some load /\
    resolvedModule host moduleName
      (combinePaths (currentDirectoryOf host) "tsconfig.json") = Some path /\
    load path = Returns exports /\
    (key, v) ∈ ownProperties exports /\
    getProperty v "extension-kind" = Str k /\
    kind d = k /\
    profiles d = None /\
    if knownKind k
    then ctor d = Some v /\ typeof v = "function" /\ __extension d = None
    else ctor d = None /\ __extension d = Some v.
Proof.
  intros Hget Hg Hd.
  destruct (getCompilerExtensions_first _ _ _ _ createExtensionCache _ _ eq_refl Hget)
    as (_ & s1 & Hcollect & _).
  destruct (collectCompilerExtensions_inv _ _ _ _ _ _ _ Hcollect) as [Hall _].
  destruct (Hall k g d Hg Hd)
    as (Hk & moduleName & load & path & exports & key & v & Hm & Hl & Hr & Hp & Hkv & Hdesc).
  destruct Hdesc as (_ & _ & Htag & Hprof & Hshape).
  exists moduleName, load, path, exports, key, v.
  do 5 (split; [assumption |]).
  split; [congruence |]. split; [exact Hk |]. split; [exact Hprof |].
  rewrite Hk in Hshape. destruct (knownKind k).
  - destruct Hshape as (Hfun & Hctor & Hext). auto.
  - exact Hshape.
Qed.

Lemma accepted_descriptor_shape_witness :
  let d := {| name := "fmt"; args := Undefined; kind := "formatter"; profiles := None;
              ctor := None; __extension := Some (taggedObject "formatter") |} in
  let host := hostLoading (Returns (moduleExporting [("default", taggedObject "formatter")])) in
  fst (getCompilerExtensions false noStack {| extensions := NameList ["fmt"] |} host
         createExtensionCache)
  = Normal {["formatter" := [d]]} /\
  exists key v,
    (key, v) ∈ [("default", taggedObject "formatter")] /\
    getProperty v "extension-kind" = Str "formatter" /\
    ctor d = None /\ __extension d = Some v.
Proof.
  intros d host. split; [vm_compute; reflexivity |].
  assert (Hget : getCompilerExtensions false noStack {| extensions := NameList ["fmt"] |} host
                   createExtensionCache
                 = (Normal ({["formatter" := [d]]} : gmap string (list Extension)),
                    {| Cache.diagnostics := [];
                       Cache.extensions :=
                         Some ({["formatter" := [d]]} : gmap string (list Extension));
                       Cache.loadCalls := ["/project/node_modules/fmt/index.js"] |}))
    by (vm_compute; reflexivity).
  assert (Hgroup : ({["formatter" := [d]]} : gmap string (list Extension)) !! "formatter"
                   = Some [d])
    by (vm_compute; reflexivity).
  destruct (accepted_descriptor_shape false noStack {| extensions := NameList ["fmt"] |} host
              _ _ "formatter" [d] d Hget Hgroup (list_elem_of_here _ _))
    as (moduleName & load & path & exports & key & v & _ & Hload & _ & Hout & Hkv & Htag
        & _ & _ & Hshape).
  injection Hload as <-. injection Hout as <-.
  exists key, v. split; [exact Hkv |]. split; [exact Htag |]. exact Hshape.
Defined.

(** ** Profiles of other tasks *)

(** X9: starting or completing a task whose name is not "__proto__"
    leaves what [profiles] reads for every other key as it was, leaves
    [Object.prototype] alone, and changes nothing of the descriptor but its
    profiles (name, args, kind, ctor and __extension stay). *)
Theorem profiling_leaves_other_tasks (strict : bool) (now : Z) (realm : Realm)
    (d : Extension) (T T' : string) :
  T <> "__proto__" ->
  T <> T' ->
  lookupProfile realm (startExtensionProfile now d T) T' = lookupProfile realm d T' /\
  (forall realm' d',
     completeExtensionProfile strict now realm d T = Normal (realm', d') ->
     realm' = realm /\
     lookupProfile realm d' T' = lookupProfile realm d T' /\
     (name d', args d', kind d', ctor d', __extension d')
     = (name d, args d, kind d, ctor d, __extension d)) /\
  (name (startExtensionProfile now d T), args (startExtensionProfile now d T),
   kind (startExtensionProfile now d T), ctor (startExtensionProfile now d T),
   __extension (startExtensionProfile now d T))
  = (name d, args d, kind d, ctor d, __extension d).
Proof.
  intros Hproto Hne. apply String.eqb_neq in Hproto. split; [| split].
  - unfold lookupProfile, startExtensionProfile, assignProfile; simpl.
    rewrite Hproto.
    match goal with
    | |- getProfile realm (match entries ?p !! T with _ => _ end) T' = _ =>
      destruct (entries p !! T); unfold getProfile; simpl;
        rewrite lookup_insert_ne by assumption; reflexivity
    end.
  - intros realm' d'. unfold completeExtensionProfile, lookupProfile.
    destruct (profiles d) as [p |] eqn:Hp; simpl; [| discriminate].
    destruct (getProfile realm p T) as [r | r | | | v |] eqn:Hfound; simpl.
    + intros [= <- <-]. split; [reflexivity |]. simpl. split; [| reflexivity].
      unfold getProfile; simpl. rewrite lookup_insert_ne by assumption. reflexivity.
    + exfalso. unfold getProfile in Hfound. rewrite Hproto in Hfound.
      destruct (entries p !! T); [discriminate |].
      destruct (prototype p) as [r1 |];
        [destruct (inheritedFromRecord r1 T) |]; try discriminate;
        unfold inheritedFromObjectPrototype in Hfound;
        destruct (bool_decide (T ∈ objectPrototypeMembers)); try discriminate;
        destruct (String.eqb T "length" && objectPrototypeHasLength realm); discriminate.
    + exfalso. unfold getProfile in Hfound. rewrite Hproto in Hfound.
      destruct (entries p !! T); [discriminate |].
      destruct (prototype p) as [r1 |];
        [destruct (inheritedFromRecord r1 T) |]; try discriminate;
        unfold inheritedFromObjectPrototype in Hfound;
        destruct (bool_decide (T ∈ objectPrototypeMembers)); try discriminate;
        destruct (String.eqb T "length" && objectPrototypeHasLength realm); discriminate.
    + destruct strict; [discriminate |]. intros [= <- <-].
      rewrite Hp. repeat split.
    + destruct (truthy v); simpl; [| discriminate].
      destruct strict; [discriminate |]. intros [= <- <-].
      rewrite Hp. repeat split.
    + discriminate.
  - reflexivity.
Qed.

Lemma profiling_leaves_other_tasks_witness :
  let d := {| name := "lint"; args := Undefined; kind := "syntactic-lint";
              profiles := None; ctor := None; __extension := None |} in
  lookupProfile pristine
    (startExtensionProfile 20 (startExtensionProfile 10 d "parse") "walk") "parse"
  = OwnRecord {| task := "parse"; start := 10; length := -1 |}.
Proof.
  intros d.
  rewrite (proj1 (profiling_leaves_other_tasks false 20 pristine
                    (startExtensionProfile 10 d "parse") "walk" "parse"
                    ltac:(discriminate) ltac:(discriminate))).
  reflexivity.
Defined.

(** X10: a task that has a record can be completed, and completed again:
    both calls return, the record keeps its task and its start, and its
    length ends up as the second reading minus that same start. *)
Theorem complete_profile_again (strict : bool) (realm : Realm) (d : Extension)
    (T : string) (t1 t2 : Z) (r : ProfileData) :
  recordOf realm d T = Some r ->
  exists d1 d2 r2,
    completeExtensionProfile strict t1 realm d T = Normal (realm, d1) /\
    completeExtensionProfile strict t2 realm d1 T = Normal (realm, d2) /\
    recordOf realm d2 T = Some r2 /\
    task r2 = task r /\ start r2 = start r /\ length r2 = t2 - start r.
Proof.
  intros Hrec.
  destruct (completeExtensionProfile_recorded strict t1 realm d T r Hrec)
    as (d1 & Hrun1 & Hrec1).
  destruct (completeExtensionProfile_recorded strict t2 realm d1 T _ Hrec1)
    as (d2 & Hrun2 & Hrec2).
  exists d1, d2. eexists. split; [exact Hrun1 |]. split; [exact Hrun2 |].
  split; [exact Hrec2 |]. repeat split.
Qed.

Lemma complete_profile_again_witness :
  let d := startExtensionProfile 100
             {| name := "lint"; args := Undefined; kind := "semantic-lint";
                profiles := None; ctor := None; __extension := None |} "check" in
  exists d1 d2 r2,
    completeExtensionProfile true 150 pristine d "check" = Normal (pristine, d1) /\
    completeExtensionProfile true 180 pristine d1 "check" = Normal (pristine, d2) /\
    recordOf pristine d2 "check" = Some r2 /\
    task r2 = "check" /\ start r2 = 100 /\ length r2 = 180 - 100.
Proof.
  intros d.
  apply (complete_profile_again true pristine d "check" 150 180
           {| task := "check"; start := 100; length := -1 |}).
  reflexivity.
Defined.

(** ** Failing names among working ones *)

Lemma loadExtensionNamed_outcome stack host name s :
  exists s',
    loadExtensionNamed stack host (currentDirectoryOf host) name s
    = (Normal {| Res.name := name; Res.result := loadedExports host name;
                 Res.error := loadErrorOf stack host name |}, s') /\
    Cache.diagnostics s'
    = (Cache.diagnostics s ++ loadDiagnosticsOf stack host [name])%list /\
    Cache.extensions s' = Cache.extensions s.
Proof.
  unfold loadExtensionNamed, loadedExports, loadErrorOf, loadDiagnosticsOf; simpl.
  unfold loadErrorOf.
  destruct (loadExtension host) as [load |].
  - destruct (resolvedModule host name
                (combinePaths (currentDirectoryOf host) "tsconfig.json")) as [path |].
    + unfold bind at 1. unfold bind at 1. unfold callLoadExtension at 1.
      destruct (load path) as [v | e]; simpl.
      * eexists. split; [reflexivity |]. simpl. rewrite app_nil_r. split; reflexivity.
      * destruct (truthy e); unfold bind, ret, pushDiagnostic; simpl;
          (eexists; split; [reflexivity |]); simpl; rewrite ?app_nil_r; split; reflexivity.
    + unfold bind, ret, pushDiagnostic; simpl. eexists. split; [reflexivity |].
      simpl. split; reflexivity.
  - unfold bind, ret, pushDiagnostic; simpl. eexists. split; [reflexivity |].
    simpl. split; reflexivity.
Qed.

Lemma load_phase_outcome stack host names :
  forall s, exists s',
    mapArray names (loadExtensionNamed stack host (currentDirectoryOf host)) s
    = (Normal (List.map (fun name =>
                 {| Res.name := name; Res.result := loadedExports host name;
                    Res.error := loadErrorOf stack host name |}) names), s') /\
    Cache.diagnostics s'
    = (Cache.diagnostics s ++ loadDiagnosticsOf stack host names)%list /\
    Cache.extensions s' = Cache.extensions s.
Proof.
  induction names as [| name names IH]; intros s; simpl.
  - exists s. unfold loadDiagnosticsOf; simpl. rewrite app_nil_r. repeat split.
  - destruct (loadExtensionNamed_outcome stack host name s) as (s1 & Hrun & Hd1 & He1).
    destruct (IH s1) as (s2 & Hrest & Hd2 & He2).
    exists s2. split.
    { erewrite bind_normal by exact Hrun. erewrite bind_normal by exact Hrest. reflexivity. }
    split; [| congruence].
    rewrite Hd2, Hd1. unfold loadDiagnosticsOf; simpl.
    rewrite app_nil_r, <- app_assoc. reflexivity.
Qed.

Lemma failed_load_has_no_exports stack host name :
  truthy (loadErrorOf stack host name) = true -> loadedExports host name = Undefined.
Proof.
  unfold loadErrorOf, loadedExports.
  destruct (loadExtension host) as [load |]; [| reflexivity].
  destruct (resolvedModule host name
              (combinePaths (currentDirectoryOf host) "tsconfig.json")) as [path |];
    [| reflexivity].
  destruct (load path); [discriminate | reflexivity].
Qed.

Lemma prepare_phase_outcome stack options host names :
  extensions options <> NoExtensions ->
  (forall name, name ∈ names ->
     forallb classifiable (List.map snd (ownProperties (loadedExports host name))) = true) ->
  forall s, exists prepared,
    mapArray
      (List.filter (fun res => negb (truthy (Res.error res)))
         (List.map (fun name =>
            {| Res.name := name; Res.result := loadedExports host name;
               Res.error := loadErrorOf stack host name |}) names))
      (prepareExtensionObject options) s
    = (Normal (List.map Some prepared), s) /\
    concat prepared
    = concat (List.map (fun name => descriptorsOf (extensions options) name
                                      (loadedExports host name)) names).
Proof.
  intros Hopt. induction names as [| name names IH]; intros Hall s; simpl.
  - exists []. split; reflexivity.
  - destruct (IH (fun n Hn => Hall n (list_elem_of_further _ _ _ Hn)) s)
      as (prepared & Hrest & Hconcat).
    destruct (truthy (loadErrorOf stack host name)) eqn:Herr; simpl.
    + exists prepared. split; [exact Hrest |].
      rewrite (failed_load_has_no_exports _ _ _ Herr). exact Hconcat.
    + exists (descriptorsOf (extensions options) name (loadedExports host name) :: prepared).
      split; [| simpl; rewrite Hconcat; reflexivity].
      erewrite bind_normal.
      2: { apply classifiable_module_descriptors; [exact Hopt |].
           apply Hall, list_elem_of_here. }
      erewrite bind_normal by exact Hrest. reflexivity.
Qed.

Lemma flatten_defined keep (prepared : list (list Extension)) :
  flatten keep (List.map Some prepared) = Normal (concat prepared).
Proof.
  induction prepared as [| l prepared IH]; simpl; [reflexivity |].
  rewrite IH. reflexivity.
Qed.

(** X13: names that fail do not disturb the others.  When the exports of
    every module that does load are classifiable, discovery returns
    normally whichever names cannot be loaded, cannot be resolved or throw
    while loading; it records exactly the load diagnostics, one for each
    name whose error is truthy, in configured order; and the group of each
    kind is the sequence of the descriptors of that kind of the loaded
    modules, in configured and enumeration order. *)
Theorem failing_names_are_skipped (keep : bool) (stack : string -> Value)
    (options : CompilerOptions) (host : ExtensionHost) :
  (forall name, name ∈ extensionNamesOf (extensions options) ->
     forallb classifiable (List.map snd (ownProperties (loadedExports host name))) = true) ->
  exists groups s',
    getCompilerExtensions keep stack options host createExtensionCache
    = (Normal groups, s') /\
    Cache.diagnostics s'
    = loadDiagnosticsOf stack host (extensionNamesOf (extensions options)) /\
    forall k,
      groups !! k
      = match filter (fun d => kind d = k)
                (concat (List.map
                   (fun name => descriptorsOf (extensions options) name
                                  (loadedExports host name))
                   (extensionNamesOf (extensions options)))) with
        | [] => None
        | d :: g => Some (d :: g)
        end.
Proof.
  intros Hall.
  destruct (extensionNamesOf (extensions options)) as [| name0 names0] eqn:Hnames.
  - eexists _, _. split.
    { apply nothing_configured. exact Hnames. }
    split; [reflexivity |]. intros k. simpl. rewrite lookup_empty. reflexivity.
  - assert (Hopt : extensions options <> NoExtensions).
    { intros Hno. rewrite Hno in Hnames. discriminate. }
    rewrite <- Hnames in *. clear Hnames name0 names0.
    destruct (load_phase_outcome stack host (extensionNamesOf (extensions options))
                createExtensionCache) as (s1 & Hphase & Hdiags & _).
    destruct (prepare_phase_outcome stack options host _ Hopt Hall s1)
      as (prepared & Hprep & Hconcat).
    unfold getCompilerExtensions, collectCompilerExtensions; simpl.
    fold (currentDirectoryOf host).
    erewrite bind_normal by exact Hphase.
    erewrite bind_normal by exact Hprep.
    rewrite flatten_defined. simpl.
    eexists _, _. split; [reflexivity |]. split; [exact Hdiags |].
    intros k. rewrite <- Hconcat. apply groupBy_lookup.
Qed.

Lemma failing_names_are_skipped_witness :
  let options := {| extensions := NameList ["gone"; "broken"; "types"] |} in
  let host :=
    {| getCurrentDirectory := Some "/project";
       loadExtension := Some (fun path =>
         if String.eqb path "/lib/broken.js"
         then Throws (thrownError "boom" "at load (broken.js:1:1)")
         else Returns (moduleExporting [("default", lintConstructor "semantic-lint")]));
       resolvedModule := fun name _ =>
         if String.eqb name "gone" then None else Some ("/lib/" +:+ name +:+ ".js") |} in
  exists groups s',
    getCompilerExtensions false noStack options host createExtensionCache
    = (Normal groups, s') /\
    List.length (Cache.diagnostics s') = 2%nat /\
    List.map name <$> groups !! "semantic-lint" = Some ["types"].
Proof.
  intros options host.
  destruct (failing_names_are_skipped false noStack options host)
    as (groups & s' & Hget & Hdiags & Hgroups).
  - intros name Hin.
    apply elem_of_cons in Hin as [-> | Hin]; [reflexivity |].
    apply elem_of_cons in Hin as [-> | Hin]; [reflexivity |].
    apply list_elem_of_singleton in Hin as ->. reflexivity.
  - exists groups, s'. split; [exact Hget |].
    rewrite Hdiags, Hgroups. split; reflexivity.
Defined.

(** ** A name that does not resolve *)

Lemma collectCompilerExtensions_load_diagnostics keep stack options host s c s' :
  collectCompilerExtensions keep stack options host s = (c, s') ->
  (Cache.diagnostics s ++
   loadDiagnosticsOf stack host (extensionNamesOf (extensions options)))%list
  `prefix_of` Cache.diagnostics s'.
Proof.
  unfold collectCompilerExtensions. fold (currentDirectoryOf host). intros H.
  destruct (load_phase_outcome stack host (extensionNamesOf (extensions options)) s)
    as (s1 & Hphase & Hdiags & _).
  erewrite bind_normal in H by exact Hphase. rewrite <- Hdiags.
  assert (Hgrows : grows s1 s'); [| exact (proj1 Hgrows)].
  apply bind_inv in H as [(e & H & _) | (prepared & s2 & Hprep & H)].
  - eapply mapArray_grows; [| exact H].
    intros x s0 c0 s0'. apply prepareExtensionObject_grows.
  - eapply grows_trans.
    + eapply mapArray_grows; [| exact Hprep].
      intros x s0 c0 s0'. apply prepareExtensionObject_grows.
    + destruct (flatten keep prepared); inversion H; subst; apply grows_refl.
Qed.

Lemma omap_without_unresolved {A} (f : string -> option A) (names : list string) missing :
  f missing = None ->
  omap f names = omap f (List.filter (fun n => negb (String.eqb n missing)) names).
Proof.
  intros Hnone. induction names as [| n names IH]; [reflexivity |].
  change (omap f (n :: names))
    with (match f n with Some y => y :: omap f names | None => omap f names end).
  simpl List.filter.
  destruct (String.eqb_spec n missing) as [-> | Hne]; simpl negb; cbv iota.
  - rewrite Hnone. exact IH.
  - change (omap f (n :: List.filter (fun n0 => negb (String.eqb n0 missing)) names))
      with (match f n with
            | Some y => y :: omap f (List.filter (fun n0 => negb (String.eqb n0 missing)) names)
            | None => omap f (List.filter (fun n0 => negb (String.eqb n0 missing)) names)
            end).
    rewrite IH. reflexivity.
Qed.

(** X1: when the host can load but cannot resolve a configured name,
    discovery, however it ends, has recorded the diagnostic made from the
    [Error] "Host could not locate extension '<name>'.", has not asked the
    host to load anything for that name, and, when it returns, no
    descriptor it returns stems from that name. *)
Theorem unresolved_name_is_diagnosed (keep : bool) (stack : string -> Value)
    (options : CompilerOptions) (host : ExtensionHost) (load : string -> LoadOutcome)
    (missing : string) (c : Completion (gmap string (list Extension))) (s' : Cache.state) :
  loadExtension host = Some load ->
  missing ∈ extensionNamesOf (extensions options) ->
  resolvedModule host missing (combinePaths (currentDirectoryOf host) "tsconfig.json") = None ->
  getCompilerExtensions keep stack options host createExtensionCache = (c, s') ->
  loadDiagnostic (newError stack ("Host could not locate extension '" +:+ missing +:+ "'."))
    ∈ Cache.diagnostics s' /\
  Cache.loadCalls s'
  = omap (fun n => resolvedModule host n
                     (combinePaths (currentDirectoryOf host) "tsconfig.json"))
         (List.filter (fun n => negb (String.eqb n missing))
            (extensionNamesOf (extensions options))) /\
  forall groups k g d,
    c = Normal groups -> groups !! k = Some g -> d ∈ g ->
    exists moduleName key,
      moduleName <> missing /\
      moduleName ∈ extensionNamesOf (extensions options) /\
      name d = descriptorName moduleName key.
Proof.
  intros Hload Hname Hres Hget.
  assert (Hcollect : exists c0 s0,
             collectCompilerExtensions keep stack options host createExtensionCache
             = (c0, s0) /\
             Cache.diagnostics s' = Cache.diagnostics s0 /\
             Cache.loadCalls s' = Cache.loadCalls s0 /\
             (forall groups, c = Normal groups -> c0 = Normal groups)).
  { unfold getCompilerExtensions in Hget; simpl in Hget.
    destruct (collectCompilerExtensions keep stack options host createExtensionCache)
      as [[g0 | e0] s0]; inversion Hget; subst; eexists _, _;
      (split; [reflexivity |]); (split; [reflexivity |]); (split; [reflexivity |]);
      intros groups [=]; subst; reflexivity. }
  destruct Hcollect as (c0 & s0 & Hcollect & Hdiags & Hcalls & Hnormal).
  split; [| split].
  - rewrite Hdiags.
    pose proof (collectCompilerExtensions_load_diagnostics _ _ _ _ _ _ _ Hcollect)
      as [rest Hprefix].
    rewrite Hprefix. simpl. apply elem_of_app. left.
    apply list_elem_of_In. unfold loadDiagnosticsOf. apply in_flat_map.
    exists missing. split; [by apply list_elem_of_In |].
    unfold loadErrorOf. rewrite Hload, Hres. simpl. left. reflexivity.
  - rewrite Hcalls.
    destruct (collectCompilerExtensions_loads _ _ _ _ _ _ _ Hcollect) as [Hloads _].
    rewrite Hloads. simpl. unfold expectedLoadCalls. rewrite Hload.
    apply omap_without_unresolved. exact Hres.
  - intros groups k g d Hc Hg Hd. specialize (Hnormal groups Hc). subst c0.
    destruct (collectCompilerExtensions_inv _ _ _ _ _ _ _ Hcollect) as [Hall _].
    destruct (Hall k g d Hg Hd)
      as (_ & moduleName & load' & path & exports & key & v & Hm & _ & Hr & _ & _ & Hdesc).
    exists moduleName, key. split; [| split].
    + intros ->. rewrite Hres in Hr. discriminate.
    + exact Hm.
    + exact (proj1 Hdesc).
Qed.

Lemma unresolved_name_is_diagnosed_witness :
  loadDiagnostic (newError noStack "Host could not locate extension 'missing'.")
    ∈ Cache.diagnostics
        (snd (getCompilerExtensions false noStack {| extensions := NameList ["missing"] |}
                hostWithoutModules createExtensionCache)).
Proof.
  apply (proj1 (unresolved_name_is_diagnosed false noStack
                  {| extensions := NameList ["missing"] |} hostWithoutModules
                  (fun _ => Returns Undefined) "missing" _ _
                  eq_refl (list_elem_of_here _ _) eq_refl (surjective_pairing _))).
Defined.

(** ** Names of the descriptors *)





